(** * QuantumFlow backend: circuit construction and column evolution

    A shallow embedding of [app/qiskit_runner.py] (with the field types of
    [app/models.py]) and the properties of its gate normaliser, angle
    resolver, column builder, execution driver and evolution walker.

    Conventions of the embedding.
    - A Python exception is a value of [exn]; a call that may raise returns
      a [result].  Where the source interpolates a value into a message
      (an f-string), the model keeps the literal prefix of the message.
    - Python [float] is the primitive binary64 [float]: angles and
      probabilities are the doubles the code computes, with their rounding
      and their overflow.  Rationals ([Q]) appear only in statements, for
      the exact value of a double or of a quotient of integers.
    - Everything outside the repository (qiskit, qiskit_aer, the process
      environment, the interpreter's text-to-float conversion) is a field of
      the record [Engine]; a circuit is mutated in place in the source and is
      threaded explicitly here.  A call of the engine that raises leaves the
      circuit it was called on as it was. *)

From Stdlib Require Import ZArith List String Ascii Bool QArith Lia.
From Stdlib Require Import Permutation Sorted.
From Stdlib Require Import PrimFloat SpecFloat FloatOps.
Import ListNotations.

Local Open Scope string_scope.
Local Open Scope list_scope.
Local Open Scope Z_scope.

(** ** Exceptions and results *)

Inductive exn : Type :=
| ValueError (msg : string)
| RuntimeError (msg : string)
| TypeError (msg : string)
| OverflowError
| ZeroDivisionError
| EngineError (msg : string).

Inductive result (A : Type) : Type :=
| Ok (a : A)
| Err (e : exn).

Arguments Ok {A} a.
Arguments Err {A} e.

Definition bind {A B : Type} (r : result A) (k : A -> result B) : result B :=
  match r with
  | Ok a => k a
  | Err e => Err e
  end.

Notation "x <- r ;; k" := (bind r (fun x => k))
  (at level 61, r at next level, right associativity).

Definition is_ok {A : Type} (r : result A) : bool :=
  match r with Ok _ => true | Err _ => false end.

(** ** Python values

    The scalars a gate description carries: [None], [bool], [int], [float]
    and [str]. *)

Inductive pyval : Type :=
| PNone
| PBool (b : bool)
| PInt (z : Z)
| PFloat (f : float)
| PStr (s : string).

Definition pydict : Type := list (string * pyval).

(** [d.get(k)]: the value under [k], [None] when the key is absent. *)
Fixpoint dict_get (d : pydict) (k : string) : pyval :=
  match d with
  | [] => PNone
  | (k', v) :: d' => if String.eqb k k' then v else dict_get d' k
  end.

(** Truth value of a scalar: [None], [False], [0], [0.0], [-0.0] and the
    empty string are false. *)
Definition truthy (v : pyval) : bool :=
  match v with
  | PNone => false
  | PBool b => b
  | PInt z => negb (z =? 0)
  | PFloat f => negb (PrimFloat.eqb f 0%float)
  | PStr s => negb (String.eqb s "")
  end.

(** [a or b] *)
Definition py_or (a b : pyval) : pyval := if truthy a then a else b.

(** ** Floats *)

(** [math.pi] *)
Definition pi : float := 0x1.921fb54442d18p+1%float.

(** [float(z)] for an [int]: the nearest binary64, ties to even;
    [None] when it overflows ([OverflowError]). *)
Definition float_of_int (z : Z) : option float :=
  match binary_normalize 53 1024 z 0 false with
  | S754_infinity _ => None
  | sf => Some (SF2Prim sf)
  end.

(** An [int] as a floating-point value that is not rounded yet. *)
Definition int_as_SF (z : Z) : spec_float :=
  match z with
  | Z0 => S754_zero false
  | Zpos p => S754_finite false p 0
  | Zneg p => S754_finite true p 0
  end.

(** [a / b] on two [int]s, given [b <> 0]: the binary64 nearest to the
    quotient, ties to even; a zero dividend takes the sign of the divisor;
    [None] when the quotient overflows ([OverflowError]). *)
Definition int_quotient (a b : Z) : option float :=
  if a =? 0 then Some (if b <? 0 then (- 0)%float else 0%float)
  else
    match SFdiv 53 1024 (int_as_SF a) (int_as_SF b) with
    | S754_infinity _ => None
    | sf => Some (SF2Prim sf)
    end.

(** The exact value of a double, [None] for an infinity or a NaN. *)
Definition exact_value (f : float) : option Q :=
  match Prim2SF f with
  | S754_zero _ => Some (0 # 1)%Q
  | S754_finite s m e =>
      let n := if s then Z.neg m else Z.pos m in
      Some (if 0 <=? e then inject_Z (n * 2 ^ e) else (n # Z.to_pos (2 ^ (- e)))%Q)
  | _ => None
  end.

(** Exact comparison of an [int] with a [float], as Python does it
    ([None] when the float is a NaN). *)
Definition int_float_compare (z : Z) (f : float) : option comparison :=
  match Prim2SF f with
  | S754_nan => None
  | S754_infinity s => Some (if s then Gt else Lt)
  | S754_zero _ => Some (z ?= 0)
  | S754_finite s m e =>
      let v := if s then Z.neg m else Z.pos m in
      Some (if 0 <=? e then z ?= v * 2 ^ e else z * 2 ^ (- e) ?= v)
  end.

(** ** Comparison of scalars: [==] and [<] *)

Definition as_int (v : pyval) : option Z :=
  match v with
  | PBool b => Some (Z.b2z b)
  | PInt z => Some z
  | _ => None
  end.

Definition py_eq (a b : pyval) : bool :=
  match a, b with
  | PNone, PNone => true
  | PStr s, PStr t => String.eqb s t
  | PFloat f, PFloat g => PrimFloat.eqb f g
  | PFloat f, _ =>
      match as_int b with
      | Some z => match int_float_compare z f with Some Eq => true | _ => false end
      | None => false
      end
  | _, PFloat g =>
      match as_int a with
      | Some z => match int_float_compare z g with Some Eq => true | _ => false end
      | None => false
      end
  | _, _ =>
      match as_int a, as_int b with
      | Some x, Some y => x =? y
      | _, _ => false
      end
  end.

Definition lt_not_supported : exn :=
  TypeError "'<' not supported between instances".

Definition py_lt (a b : pyval) : result bool :=
  match a, b with
  | PStr s, PStr t => Ok (String.ltb s t)
  | PFloat f, PFloat g => Ok (PrimFloat.ltb f g)
  | PFloat f, _ =>
      match as_int b with
      | Some z => Ok (match int_float_compare z f with Some Gt => true | _ => false end)
      | None => Err lt_not_supported
      end
  | _, PFloat g =>
      match as_int a with
      | Some z => Ok (match int_float_compare z g with Some Lt => true | _ => false end)
      | None => Err lt_not_supported
      end
  | _, _ =>
      match as_int a, as_int b with
      | Some x, Some y => Ok (x <? y)
      | _, _ => Err lt_not_supported
      end
  end.

(** ** Gate records and normalised gate applications *)

(** A gate description, read through [gate.get(...)]: a field that is absent
    and a field that is [None] are the same to the code.  The fields have the
    types of [GateModel]; [position] is kept as an arbitrary scalar because
    the code inspects its type at run time. *)
Record GateRecord : Type := mkGate {
  gate_type : string;
  gate_qubit : option Z;
  gate_position : pyval;
  gate_params : option pydict;
  gate_targets : option (list Z);
  gate_controls : option (list Z)
}.

(** One call of a method of the engine's circuit: [qc.h(q)], [qc.rx(a, q)],
    [qc.cx(c, t)], ...  The single-qubit operand is the [qubit] field as
    it is, present or not. *)
Inductive gate_op : Type :=
| qc_h (q : option Z)
| qc_x (q : option Z)
| qc_y (q : option Z)
| qc_z (q : option Z)
| qc_s (q : option Z)
| qc_t (q : option Z)
| qc_rx (angle : float) (q : option Z)
| qc_ry (angle : float) (q : option Z)
| qc_rz (angle : float) (q : option Z)
| qc_p (angle : float) (q : option Z)
| qc_cx (control target : Z)
| qc_cz (control target : Z)
| qc_swap (q1 q2 : Z)
| qc_ccx (c1 c2 target : Z).

(** ** The external collaborators *)

(** What [result.get_counts()] may be: a dict, a list of dicts (one per
    experiment), or something else. *)
Inductive counts_value : Type :=
| CountsDict (d : list (string * Z))
| CountsList (l : list (list (string * Z)))
| CountsOther.

(** What [result.get_memory()] may be: a string, the list of the shots'
    bitstrings, or a list of such lists (one per experiment). *)
Inductive memval : Type :=
| MStr (s : string)
| MList (l : list string)
| MNested (l : list (list string)).

Record sim_result : Type := mkSimResult {
  get_counts : result counts_value;
  get_memory : result memval
}.

Record Engine : Type := mkEngine {
  circuit : Type;
  backend : Type;
  amplitude : Type;
  (** [float(s)] on a string *)
  float_of_str : string -> option float;
  (** [os.getenv(name)] *)
  getenv : string -> option string;
  (** [QuantumCircuit(qubits, clbits)] *)
  QuantumCircuit : Z -> Z -> result circuit;
  (** the gate methods of a circuit *)
  qc_apply : circuit -> gate_op -> result circuit;
  (** [qc.measure(qubits, clbits)] *)
  qc_measure : circuit -> list Z -> list Z -> result circuit;
  (** [from qiskit_aer import AerSimulator; AerSimulator()] *)
  AerSimulator : result backend;
  (** [Aer.get_backend(name)] *)
  Aer_get_backend : string -> result backend;
  transpile : circuit -> backend -> result circuit;
  (** [backend.run(circ, shots=..., memory=...).result()] *)
  backend_run : backend -> circuit -> Z -> bool -> result sim_result;
  (** [Statevector(qc).data] *)
  Statevector : circuit -> result (list amplitude);
  (** [f"{c.real:.5f}{c.imag:+.5f}j"] *)
  format_amplitude : amplitude -> string
}.

Record ExecuteResult : Type := mkExecuteResult {
  res_backend : string;
  res_shots : Z;
  res_counts : list (string * Z);
  res_probabilities : list (string * float);
  res_memory : option memval
}.

(** The divisor of the probabilities: a float or an integer. *)
Inductive total_value : Type :=
| TotalFloat (t : float)
| TotalInt (t : Z).

(** ** Sorting *)

Section Sorting.

Context {A : Type}.
Variable key : A -> Z.

(** [sorted(l, key=key)] with integer keys: a stable sort. *)
Fixpoint insert_by (x : A) (l : list A) : list A :=
  match l with
  | [] => [x]
  | y :: l' => if key y <? key x then y :: insert_by x l' else x :: l
  end.

Fixpoint sorted_by (l : list A) : list A :=
  match l with
  | [] => []
  | x :: l' => insert_by x (sorted_by l')
  end.

(** The order of the keys. *)
Definition key_le (a b : A) : Prop := key a <= key b.

End Sorting.

(** [sorted(keys)] on scalars: the same insertion, with Python's [<], which
    raises on a string against a number.  It is CPython's result whenever
    [<] orders the keys (no NaN among them). *)
Fixpoint py_insert (x : pyval) (l : list pyval) : result (list pyval) :=
  match l with
  | [] => Ok [x]
  | y :: l' =>
      b <- py_lt y x ;;
      if (b : bool) then r <- py_insert x l' ;; Ok (y :: r) else Ok (x :: l)
  end.

Fixpoint py_sorted (l : list pyval) : result (list pyval) :=
  match l with
  | [] => Ok []
  | x :: l' => s <- py_sorted l' ;; py_insert x s
  end.

(** ** The column dictionary of the evolution walker

    [columns = defaultdict(list)]: keys in insertion order, looked up with
    Python's [==] (a NaN, equal to nothing, makes a column of its own each
    time). *)
Definition columns_t : Type := list (pyval * list GateRecord).

Fixpoint columns_append (cols : columns_t) (pos : pyval) (g : GateRecord) : columns_t :=
  match cols with
  | [] => [(pos, [g])]
  | (k, gs) :: cols' =>
      if py_eq k pos then (k, gs ++ [g]) :: cols'
      else (k, gs) :: columns_append cols' pos g
  end.

Fixpoint columns_get (cols : columns_t) (pos : pyval) : list GateRecord :=
  match cols with
  | [] => []
  | (k, gs) :: cols' => if py_eq k pos then gs else columns_get cols' pos
  end.

(** [range(n)] *)
Definition range (n : Z) : list Z := map Z.of_nat (seq 0 (Z.to_nat n)).

(** [sum(counts.values())] *)
Definition sum_values (counts : list (string * Z)) : Z :=
  fold_right (fun kv acc => snd kv + acc) 0 counts.

Definition Qsum (l : list Q) : Q := fold_right Qplus (0 # 1)%Q l.

(** The doubles of a list added from the left, each sum rounded, starting
    from 0. *)
Definition float_sum (l : list float) : float := fold_left PrimFloat.add l 0%float.

(** The exact sum of the doubles of a list. *)
Fixpoint exact_sum (l : list float) : option Q :=
  match l with
  | [] => Some (0 # 1)%Q
  | f :: l' =>
      match exact_value f, exact_sum l' with
      | Some q, Some q' => Some (q + q')%Q
      | _, _ => None
      end
  end.

(** The quotients of the counts by [total] before any rounding. *)
Definition exact_quotients (total : Z) (counts : list (string * Z)) : list Q :=
  map (fun kv => (inject_Z (snd kv) / inject_Z total)%Q) counts.

Fixpoint map_result {A B : Type} (f : A -> result B) (l : list A) : result (list B) :=
  match l with
  | [] => Ok []
  | x :: l' => y <- f x ;; ys <- map_result f l' ;; Ok (y :: ys)
  end.

(** ** The program *)

Section Program.

Variable E : Engine.

(** [float(value)] *)
Definition py_float (value : pyval) : result float :=
  match value with
  | PNone => Err (TypeError "float() argument must be a string or a real number")
  | PBool b => Ok (if b then 1%float else 0%float)
  | PInt z =>
      match float_of_int z with
      | Some f => Ok f
      | None => Err OverflowError
      end
  | PFloat f => Ok f
  | PStr s =>
      match float_of_str E s with
      | Some f => Ok f
      | None => Err (ValueError "could not convert string to float")
      end
  end.

Definition _get_angle (value : pyval) : result float :=
  match py_float value with
  | Err _ => Err (ValueError "Invalid angle value")
  | Ok angle =>
      if (abs angle <=? 2 * pi)%float then Ok angle
      else Ok (angle * pi / 180)%float
  end.

(** The operand resolution of [_apply_gate]: the engine call the gate
    stands for, [None] for a type outside the vocabulary, or the error
    raised before any engine call. *)
Definition resolve_gate (gate : GateRecord) : result (option gate_op) :=
  let gtype := gate_type gate in
  let qubit := gate_qubit gate in
  let params := match gate_params gate with Some d => d | None => [] end in
  let targets := match gate_targets gate with Some l => l | None => [] end in
  let controls := match gate_controls gate with Some l => l | None => [] end in
  if String.eqb gtype "h" then Ok (Some (qc_h qubit))
  else if String.eqb gtype "x" then Ok (Some (qc_x qubit))
  else if String.eqb gtype "y" then Ok (Some (qc_y qubit))
  else if String.eqb gtype "z" then Ok (Some (qc_z qubit))
  else if String.eqb gtype "s" then Ok (Some (qc_s qubit))
  else if String.eqb gtype "t" then Ok (Some (qc_t qubit))
  else if String.eqb gtype "rx" then
    angle <- _get_angle (py_or (py_or (dict_get params "theta") (dict_get params "angle")) (PInt 0)) ;;
    Ok (Some (qc_rx angle qubit))
  else if String.eqb gtype "ry" then
    angle <- _get_angle (py_or (py_or (dict_get params "theta") (dict_get params "angle")) (PInt 0)) ;;
    Ok (Some (qc_ry angle qubit))
  else if String.eqb gtype "rz" then
    angle <- _get_angle (py_or (py_or (py_or (dict_get params "phi") (dict_get params "lambda"))
                                      (dict_get params "angle")) (PInt 0)) ;;
    Ok (Some (qc_rz angle qubit))
  else if String.eqb gtype "p" then
    angle <- _get_angle (py_or (py_or (py_or (dict_get params "phi") (dict_get params "lambda"))
                                      (dict_get params "angle")) (PInt 0)) ;;
    Ok (Some (qc_p angle qubit))
  else if String.eqb gtype "cnot" || String.eqb gtype "cx" then
    let control := match qubit with Some q => Some q | None => hd_error controls end in
    let target := hd_error targets in
    match control, target with
    | Some c, Some t => Ok (Some (qc_cx c t))
    | _, _ => Err (ValueError "CNOT requires control (qubit/controls[0]) and targets[0]")
    end
  else if String.eqb gtype "cz" then
    let control := match qubit with Some q => Some q | None => hd_error controls end in
    let target := hd_error targets in
    match control, target with
    | Some c, Some t => Ok (Some (qc_cz c t))
    | _, _ => Err (ValueError "CZ requires control and target")
    end
  else if String.eqb gtype "swap" then
    let q1 := match qubit with Some q => Some q | None => hd_error targets end in
    let q2 := match targets with t :: _ => Some t | [] => hd_error controls end in
    match q1, q2 with
    | Some a, Some b => Ok (Some (qc_swap a b))
    | _, _ => Err (ValueError
        "SWAP requires two qubits (qubit & targets[0] or targets[0] & controls[0])")
    end
  else if String.eqb gtype "toffoli" || String.eqb gtype "ccx" then
    match controls, targets with
    | c0 :: c1 :: _, t0 :: _ => Ok (Some (qc_ccx c0 c1 t0))
    | _, _ => Err (ValueError "Toffoli requires controls[0], controls[1], targets[0]")
    end
  else Ok None.

Definition _apply_gate (qc : circuit E) (gate : GateRecord) : result (circuit E) :=
  op <- resolve_gate gate ;;
  match op with
  | Some o => qc_apply E qc o
  | None => Ok qc
  end.

(** The preferred simulator on an exact name match, else the lookup by
    name, else the legacy simulator. *)
Definition _get_aer_backend (backend_name : string) : result (backend E) :=
  let preferred :=
    if String.eqb backend_name "aer_simulator" then AerSimulator E
    else Err (EngineError "not the preferred simulator") in
  match preferred with
  | Ok b => Ok b
  | Err _ =>
      match Aer_get_backend E backend_name with
      | Ok b => Ok b
      | Err _ =>
          match Aer_get_backend E "qasm_simulator" with
          | Ok b => Ok b
          | Err _ => Err (RuntimeError "Unable to get backend")
          end
      end
  end.

(** *** run_circuit *)

(** [p if isinstance(p, int) else 0] *)
Definition sort_key (g : GateRecord) : Z :=
  match gate_position g with
  | PInt z => z
  | PBool b => Z.b2z b
  | _ => 0
  end.

(** [for g in gs: _apply_gate(qc, g)] *)
Fixpoint apply_gates (qc : circuit E) (gs : list GateRecord) : result (circuit E) :=
  match gs with
  | [] => Ok qc
  | g :: gs' => qc' <- _apply_gate qc g ;; apply_gates qc' gs'
  end.

(** A dict is taken as it is, a non-empty list gives its first element,
    anything else is an unexpected format. *)
Definition normalize_counts (c : counts_value) : result (list (string * Z)) :=
  match c with
  | CountsDict d => Ok d
  | CountsList (d :: _) => Ok d
  | _ => Err (RuntimeError "Unexpected counts format from Qiskit result")
  end.

(** [float(shots) if shots else sum(counts.values())]: a float when
    [shots] is not 0 (an [OverflowError] when it is too large for one), the
    integer sum of the counts when it is. *)
Definition total_of (shots : Z) (counts : list (string * Z)) : result total_value :=
  if shots =? 0 then Ok (TotalInt (sum_values counts))
  else
    match float_of_int shots with
    | Some t => Ok (TotalFloat t)
    | None => Err OverflowError
    end.

(** [int(v) / total]: by a float, the count is converted to a float first
    and the two doubles are divided; by an integer, the integer quotient is
    rounded once. *)
Definition divide_count (v : Z) (total : total_value) : result float :=
  match total with
  | TotalFloat t =>
      match float_of_int v with
      | None => Err OverflowError
      | Some a => if (t =? 0)%float then Err ZeroDivisionError else Ok (a / t)%float
      end
  | TotalInt t =>
      if t =? 0 then Err ZeroDivisionError
      else
        match int_quotient v t with
        | Some p => Ok p
        | None => Err OverflowError
        end
  end.

(** [{str(k): int(v) / total for k, v in counts.items()}] *)
Definition probabilities_of (total : total_value) (counts : list (string * Z))
  : result (list (string * float)) :=
  map_result (fun kv => p <- divide_count (snd kv) total ;; Ok (fst kv, p)) counts.

(** The [try] block around [result.get_memory()]: [mem[0]] when [mem] is a
    list, and [None] on any exception, the [IndexError] of an empty list
    included. *)
Definition memory_out_of (memory : bool) (res : sim_result) : option memval :=
  if memory then
    match get_memory res with
    | Ok (MList (s :: _)) => Some (MStr s)
    | Ok (MNested (l :: _)) => Some (MList l)
    | Ok (MStr s) => Some (MStr s)
    | _ => None
    end
  else None.

Definition run_circuit (num_qubits : Z) (gates : list GateRecord) (shots : Z)
    (memory : bool) (override_backend : option string) : result ExecuteResult :=
  let env_backend :=
    match getenv E "QISKIT_BACKEND" with Some s => s | None => "aer_simulator" end in
  let backend_name :=
    match override_backend with
    | Some s => if String.eqb s "" then env_backend else s
    | None => env_backend
    end in
  qc <- QuantumCircuit E num_qubits num_qubits ;;
  qc <- apply_gates qc (sorted_by sort_key gates) ;;
  qc <- qc_measure E qc (range num_qubits) (range num_qubits) ;;
  backend <- _get_aer_backend backend_name ;;
  tcirc <- transpile E qc backend ;;
  res <- match backend_run E backend tcirc shots memory with
         | Ok r => Ok r
         | Err _ => Err (RuntimeError "Execution failed")
         end ;;
  counts <- get_counts res ;;
  counts <- normalize_counts counts ;;
  total <- total_of shots counts ;;
  probabilities <- probabilities_of total counts ;;
  Ok {| res_backend := backend_name;
        res_shots := shots;
        res_counts := counts;
        res_probabilities := probabilities;
        res_memory := memory_out_of memory res |}.

(** *** get_state_evolution *)

(** The key a gate is filed under: its position, 0 when it is [None]. *)
Definition column_of (g : GateRecord) : pyval :=
  match gate_position g with
  | PNone => PInt 0
  | pos => pos
  end.

Definition build_columns (gates : list GateRecord) : columns_t :=
  fold_left (fun cols g => columns_append cols (column_of g) g) gates [].

(** The inner loop: a gate whose application raises is skipped. *)
Fixpoint apply_column (qc : circuit E) (gs : list GateRecord) : circuit E :=
  match gs with
  | [] => qc
  | g :: gs' =>
      match _apply_gate qc g with
      | Ok qc' => apply_column qc' gs'
      | Err _ => apply_column qc gs'
      end
  end.

(** The state vector of the circuit, each amplitude printed; an engine
    failure becomes a [RuntimeError]. *)
Definition snapshot (qc : circuit E) (msg : string) : result (list string) :=
  match Statevector E qc with
  | Ok sv => Ok (map (format_amplitude E) sv)
  | Err _ => Err (RuntimeError msg)
  end.

(** Step 4 and 5: for each key in order, the gates of its column, then a
    snapshot. *)
Fixpoint walk (qc : circuit E) (columns : columns_t) (keys : list pyval)
  : result (list (list string)) :=
  match keys with
  | [] => Ok []
  | col_index :: keys' =>
      let qc' := apply_column qc (columns_get columns col_index) in
      state_list <- snapshot qc' "Failed to get statevector at column" ;;
      rest <- walk qc' columns keys' ;;
      Ok (state_list :: rest)
  end.

(** Steps 2 to 6 of [get_state_evolution], on the column dictionary. *)
Definition evolve_columns (num_qubits : Z) (columns : columns_t)
  : result (list (list string)) :=
  qc <- QuantumCircuit E num_qubits 0 ;;
  initial_state_vec <- snapshot qc "Failed to get initial statevector" ;;
  keys <- py_sorted (map fst columns) ;;
  rest <- walk qc columns keys ;;
  Ok (initial_state_vec :: rest).

Definition get_state_evolution (num_qubits : Z) (gates : list GateRecord)
  : result (list (list string)) :=
  evolve_columns num_qubits (build_columns gates).

End Program.

(** ** Vocabulary of the specification *)

(** The gate-kind tags [_apply_gate] tests for. *)
Definition vocabulary : list string :=
  ["h"; "x"; "y"; "z"; "s"; "t"; "rx"; "ry"; "rz"; "p";
   "cnot"; "cx"; "cz"; "swap"; "toffoli"; "ccx"].

Definition known_type (g : GateRecord) : bool :=
  existsb (String.eqb (gate_type g)) vocabulary.

(** A gate normalises when its operand resolution raises nothing. *)
Definition normalizes (E : Engine) (g : GateRecord) : bool :=
  is_ok (resolve_gate E g).

(** The columns with some gates taken out, every key kept. *)
Definition prune_columns (keep : GateRecord -> bool) (columns : columns_t) : columns_t :=
  map (fun kc => (fst kc, filter keep (snd kc))) columns.

(** A position that is an integer ([bool] is a subclass of [int]) or absent. *)
Definition int_position (g : GateRecord) : bool :=
  match gate_position g with
  | PNone | PInt _ | PBool _ => true
  | _ => false
  end.

(** The scalars that are integers, and their integer value. *)
Definition int_like (v : pyval) : bool :=
  match as_int v with Some _ => true | None => false end.

Definition int_of (v : pyval) : Z :=
  match as_int v with Some z => z | None => 0 end.

(** The distinct values of a list of scalars under [==], by first
    occurrence. *)
Definition distinct (l : list pyval) : list pyval :=
  fold_left (fun seen p => if existsb (fun k => py_eq k p) seen then seen else seen ++ [p])
            l [].

(** The position values that are occupied: one per column. *)
Definition occupied_positions (gates : list GateRecord) : list pyval :=
  distinct (map column_of gates).

(** ** A test double for the engine

    A circuit is the list of the calls made on it, every call succeeds, the
    state vector of a circuit is that list, and an amplitude prints as the
    name of the call.  The run reports the counts and memory it is built
    with.  No string is read as a number. *)

Definition op_name (o : gate_op) : string :=
  match o with
  | qc_h _ => "h" | qc_x _ => "x" | qc_y _ => "y" | qc_z _ => "z"
  | qc_s _ => "s" | qc_t _ => "t"
  | qc_rx _ _ => "rx" | qc_ry _ _ => "ry" | qc_rz _ _ => "rz" | qc_p _ _ => "p"
  | qc_cx _ _ => "cx" | qc_cz _ _ => "cz" | qc_swap _ _ => "swap"
  | qc_ccx _ _ _ => "ccx"
  end.

Definition mock_engine (counts : counts_value) (mem : result memval) : Engine :=
  {| circuit := list gate_op;
     backend := string;
     amplitude := gate_op;
     float_of_str := fun _ => None;
     getenv := fun _ => None;
     QuantumCircuit := fun _ _ => Ok [];
     qc_apply := fun qc o => Ok (qc ++ [o]);
     qc_measure := fun qc _ _ => Ok qc;
     AerSimulator := Ok "aer_simulator";
     Aer_get_backend := fun name => Ok name;
     transpile := fun qc _ => Ok qc;
     backend_run := fun _ _ _ _ => Ok (mkSimResult (Ok counts) mem);
     Statevector := fun qc => Ok qc;
     format_amplitude := op_name |}.

Definition no_memory : result memval := Err (EngineError "no memory for this experiment").

Definition plain_engine : Engine := mock_engine (CountsDict []) no_memory.

(** [{"type": t, "qubit": q, "position": pos}] *)
Definition gate1 (t : string) (q : Z) (pos : pyval) : GateRecord :=
  mkGate t (Some q) pos None None None.

(** ** Example inputs *)

(** A Bell pair, and counts an engine may report for 1024 shots of it. *)
Definition bell_counts : list (string * Z) := [("00", 498); ("11", 502)].

Definition bell_gates : list GateRecord :=
  [gate1 "h" 0 (PInt 0); mkGate "cnot" (Some 0) (PInt 1) None (Some [1]) None].

Definition bell_response : ExecuteResult :=
  {| res_backend := "aer_simulator";
     res_shots := 1024;
     res_counts := bell_counts;
     res_probabilities := [("00", (498 / 1024)%float); ("11", (502 / 1024)%float)];
     res_memory := None |}.

(** Counts that add up to 3, for a call with [shots = 0]. *)
Definition three_outcomes : list (string * Z) := [("00", 1); ("01", 1); ("11", 1)].

Definition three_outcomes_response : ExecuteResult :=
  {| res_backend := "aer_simulator";
     res_shots := 0;
     res_counts := three_outcomes;
     res_probabilities :=
       [("00", (1 / 3)%float); ("01", (1 / 3)%float); ("11", (1 / 3)%float)];
     res_memory := None |}.

(** Ten shots over four outcomes. *)
Definition ten_shots_counts : list (string * Z) :=
  [("00", 2); ("01", 4); ("10", 3); ("11", 1)].

Definition ten_shots_response : ExecuteResult :=
  {| res_backend := "aer_simulator";
     res_shots := 10;
     res_counts := ten_shots_counts;
     res_probabilities :=
       [("00", (2 / 10)%float); ("01", (4 / 10)%float);
        ("10", (3 / 10)%float); ("11", (1 / 10)%float)];
     res_memory := None |}.

(** Six outcomes seen once each, for a call with [shots = 0]. *)
Definition six_outcomes : list (string * Z) :=
  [("000", 1); ("001", 1); ("010", 1); ("011", 1); ("100", 1); ("101", 1)].

Definition six_outcomes_response : ExecuteResult :=
  {| res_backend := "aer_simulator";
     res_shots := 0;
     res_counts := six_outcomes;
     res_probabilities :=
       [("000", (1 / 6)%float); ("001", (1 / 6)%float); ("010", (1 / 6)%float);
        ("011", (1 / 6)%float); ("100", (1 / 6)%float); ("101", (1 / 6)%float)];
     res_memory := None |}.

(** A [cnot] with no qubit, no controls and no targets. *)
Definition bare_cnot : GateRecord := mkGate "cnot" None (PInt 0) None None None.

(** Gates at position 5 and at the default position. *)
Definition sparse_gates : list GateRecord :=
  [gate1 "h" 0 (PInt 5); gate1 "x" 0 PNone; gate1 "z" 0 (PInt 5)].

(** Positions that are not integers. *)
Definition half_then_zero : list GateRecord :=
  [gate1 "x" 0 (PFloat 0.5%float); gate1 "h" 0 (PInt 0)].

Definition text_then_absent : list GateRecord :=
  [gate1 "h" 0 (PStr "1"); gate1 "x" 0 PNone].

(** ** Reading a normalised gate application *)






(** The gates of position at most [k], in the order of [run_circuit]. *)
Definition gates_up_to (k : Z) (gates : list GateRecord) : list GateRecord :=
  filter (fun g => sort_key g <=? k) (sorted_by sort_key gates).

(** ** The HTTP handlers of [app/main.py]

    The request has been validated against [ExecuteRequest] before a handler
    runs; a handler gets its fields with the types of [app/models.py]. *)

Record GateModel : Type := mkGateModel {
  gm_id : option string;
  gm_type : string;
  gm_qubit : option Z;
  gm_position : option Z;
  gm_params : option pydict;
  gm_targets : option (list Z);
  gm_controls : option (list Z)
}.

(** [g.model_dump()], as [_apply_gate] and the two paths read it (they never
    read [id]). *)
Definition model_dump (g : GateModel) : GateRecord :=
  mkGate (gm_type g) (gm_qubit g)
         (match gm_position g with Some z => PInt z | None => PNone end)
         (gm_params g) (gm_targets g) (gm_controls g).

Record ExecuteRequest : Type := mkExecuteRequest {
  req_num_qubits : Z;
  req_gates : list GateModel;
  req_shots : Z;
  req_memory : bool;
  req_backend : option string
}.

(** The [Field] constraints of [ExecuteRequest]: [num_qubits >= 1] and
    [1 <= shots <= 1_000_000]. *)
Definition valid_request (req : ExecuteRequest) : bool :=
  (1 <=? req_num_qubits req) && (1 <=? req_shots req) && (req_shots req <=? 1000000).

Record ExecuteResponse : Type := mkExecuteResponse {
  resp_backend : string;
  resp_shots : Z;
  resp_counts : list (string * Z);
  resp_probabilities : list (string * float);
  resp_memory : option (list string);
  resp_status : string
}.

Record EvolutionResponse : Type := mkEvolutionResponse {
  evo_status : string;
  intermediateStates : list (list string)
}.

(** The [ExecuteResponse] built from the result dict, with status
    "success": the fields of the result against their declared types.  Only [memory] can fail to have its type,
    [Optional[List[str]]]: a string, or a list of lists, is not a list of
    strings. *)
Definition ExecuteResponse_of (result : ExecuteResult) : option ExecuteResponse :=
  let build memory :=
    Some (mkExecuteResponse (res_backend result) (res_shots result) (res_counts result)
                            (res_probabilities result) memory "success") in
  match res_memory result with
  | None => build None
  | Some (MList l) => build (Some l)
  | Some (MStr _) => None
  | Some (MNested _) => None
  end.

(** What the [detail] of an [HTTPException] is the text of: an exception of
    the call, or the validation error of the response model. *)
Inductive failure : Type :=
| Raised (e : exn)
| ResponseValidationError.

Inductive http (A : Type) : Type :=
| Http200 (body : A)
| HTTPException (status_code : Z) (detail : failure).

Arguments Http200 {A} body.
Arguments HTTPException {A} status_code detail.

Section Handlers.

Variable E : Engine.

(** [POST /api/v1/execute] *)
Definition execute (req : ExecuteRequest) : http ExecuteResponse :=
  match run_circuit E (req_num_qubits req) (map model_dump (req_gates req))
                    (req_shots req) (req_memory req) (req_backend req) with
  | Ok result =>
      match ExecuteResponse_of result with
      | Some resp => Http200 resp
      | None => HTTPException 400 ResponseValidationError
      end
  | Err e => HTTPException 400 (Raised e)
  end.

(** [POST /api/v1/execute-evolution] *)
Definition execute_evolution (req : ExecuteRequest) : http EvolutionResponse :=
  match get_state_evolution E (req_num_qubits req) (map model_dump (req_gates req)) with
  | Ok snaps => Http200 (mkEvolutionResponse "success" snaps)
  | Err e => HTTPException 400 (Raised e)
  end.

End Handlers.

(** An engine that keeps the memory of three shots. *)
Definition memory_engine : Engine :=
  mock_engine (CountsDict [("0", 2); ("1", 1)]) (Ok (MList ["0"; "1"; "0"])).

Definition bell_request (memory : bool) : ExecuteRequest :=
  mkExecuteRequest 2
    [mkGateModel None "h" (Some 0) (Some 0) None None None;
     mkGateModel None "cnot" (Some 0) (Some 1) None (Some [1]) None]
    1024 memory None.

(** * Properties *)

(** ** Results *)

Lemma bind_ok {A B : Type} (r : result A) (k : A -> result B) (b : B) :
  bind r k = Ok b -> exists a, r = Ok a /\ k a = Ok b.
Proof.
  destruct r as [a | e]; simpl; intros H.
  - exists a. split; [reflexivity | exact H].
  - discriminate H.
Qed.

Lemma is_ok_true {A : Type} (r : result A) :
  is_ok r = true -> exists a, r = Ok a.
Proof.
  destruct r as [a | e]; simpl; intros H.
  - exists a. reflexivity.
  - discriminate H.
Qed.

Lemma is_ok_false {A : Type} (r : result A) :
  is_ok r = false -> exists e, r = Err e.
Proof.
  destruct r as [a | e]; simpl; intros H.
  - discriminate H.
  - exists e. reflexivity.
Qed.

Ltac bind_inv H :=
  let a := fresh "a" in
  let Ha := fresh "Ha" in
  apply bind_ok in H; destruct H as (a & Ha & H).

(** ** Gate normaliser *)

(** C1 (the code departs from the claim).  A [swap] record with [qubit]
    absent and both [targets] and [controls] non-empty resolves to the pair
    (targets[0], targets[0]), the same qubit twice, and not to
    (targets[0], controls[0]): the second operand prefers [targets[0]]
    whether or not the first operand came from [qubit]. *)
Theorem swap_without_qubit_repeats_target :
  forall (E : Engine) (pos : pyval) (params : option pydict)
         (t c : Z) (ts cs : list Z),
    resolve_gate E (mkGate "swap" None pos params (Some (t :: ts)) (Some (c :: cs)))
    = Ok (Some (qc_swap t t)).
Proof.
  intros. reflexivity.
Qed.

(** With [qubit] present and [targets] empty, the second operand comes from
    [controls[0]] and the gate resolves, where the rule of the
    specification has no second operand. *)
Lemma swap_qubit_with_controls_only :
  forall (E : Engine) (pos : pyval) (params : option pydict)
         (q c : Z) (cs : list Z),
    resolve_gate E (mkGate "swap" (Some q) pos params None (Some (c :: cs)))
    = Ok (Some (qc_swap q c)).
Proof.
  intros. reflexivity.
Qed.

(** The operand pairs of [swap] the code and the specification agree on:
    [qubit] with [targets[0]]. *)
Lemma swap_qubit_and_target :
  forall (E : Engine) (pos : pyval) (params : option pydict) (controls : option (list Z))
         (q t : Z) (ts : list Z),
    resolve_gate E (mkGate "swap" (Some q) pos params (Some (t :: ts)) controls)
    = Ok (Some (qc_swap q t)).
Proof.
  intros. reflexivity.
Qed.

(** C2 (the code departs from the claim).  The angle chain is an [or]
    chain on truth values, not on presence: a present [theta] of value 0
    is passed over and [angle] is consulted, here 90 (degrees, beyond 2 pi),
    so that [rx] is applied with pi / 2 and not with 0; likewise a present
    [phi] of 0.0 gives way to [lambda]. *)
Theorem zero_theta_falls_through_to_angle :
  forall E : Engine,
    resolve_gate E
      (mkGate "rx" (Some 0) PNone
              (Some [("theta", PInt 0); ("angle", PInt 90)]) None None)
    = Ok (Some (qc_rx (90 * pi / 180)%float (Some 0)))
    /\
    resolve_gate E
      (mkGate "rz" (Some 0) PNone
              (Some [("phi", PFloat 0%float); ("lambda", PFloat 0.5%float)]) None None)
    = Ok (Some (qc_rz 0.5%float (Some 0))).
Proof.
  intros E. split; vm_compute; reflexivity.
Qed.

(** What the chain does: the first value that is true, else 0. *)
Lemma rx_angle_chain :
  forall (E : Engine) (q : option Z) (pos : pyval) (d : pydict)
         (ts cs : option (list Z)),
    resolve_gate E (mkGate "rx" q pos (Some d) ts cs)
    = (angle <- _get_angle E
                  (if truthy (dict_get d "theta") then dict_get d "theta"
                   else if truthy (dict_get d "angle") then dict_get d "angle"
                   else PInt 0) ;;
       Ok (Some (qc_rx angle q))).
Proof.
  intros. unfold resolve_gate, py_or. simpl.
  destruct (truthy (dict_get d "theta")) eqn:Ht;
    destruct (truthy (dict_get d "angle")) eqn:Ha;
    rewrite ?Ht, ?Ha; reflexivity.
Qed.

(** ** Angle resolver *)

(** C6.  [_get_angle] fails with the invalid-angle error exactly when the
    input does not convert to a float; a converted number of absolute value
    at most 2 pi is returned as it is, any other is multiplied by pi and
    divided by 180.  The float 3.0 maps to 3.0 and the integer 180 to pi. *)
Theorem angle_resolver :
  forall (E : Engine) (value : pyval),
    (forall e, py_float E value = Err e ->
               _get_angle E value = Err (ValueError "Invalid angle value"))
    /\ (forall a, py_float E value = Ok a ->
                  (abs a <=? 2 * pi)%float = true ->
                  _get_angle E value = Ok a)
    /\ (forall a, py_float E value = Ok a ->
                  (abs a <=? 2 * pi)%float = false ->
                  _get_angle E value = Ok (a * pi / 180)%float)
    /\ _get_angle E (PFloat 3%float) = Ok 3%float
    /\ _get_angle E (PInt 180) = Ok pi.
Proof.
  intros E value. unfold _get_angle.
  repeat split.
  - intros e H. rewrite H. reflexivity.
  - intros a H Hle. rewrite H, Hle. reflexivity.
  - intros a H Hle. rewrite H, Hle. reflexivity.
Qed.

Lemma angle_resolver_witness :
  _get_angle plain_engine (PStr "not-a-number") = Err (ValueError "Invalid angle value")
  /\ _get_angle plain_engine (PFloat 0.5%float) = Ok 0.5%float
  /\ _get_angle plain_engine (PInt 720) = Ok (720 * pi / 180)%float.
Proof.
  split; [| split].
  - exact (proj1 (angle_resolver plain_engine (PStr "not-a-number"))
                 (ValueError "could not convert string to float") eq_refl).
  - exact (proj1 (proj2 (angle_resolver plain_engine (PFloat 0.5%float)))
                 0.5%float eq_refl eq_refl).
  - exact (proj1 (proj2 (proj2 (angle_resolver plain_engine (PInt 720))))
                 720%float eq_refl eq_refl).
Defined.

(** An integer too large for a binary64 does not convert: its angle is
    invalid. *)
Lemma angle_of_huge_int :
  forall E : Engine,
    _get_angle E (PInt (2 ^ 1024)) = Err (ValueError "Invalid angle value").
Proof.
  intros E. vm_compute. reflexivity.
Qed.

(** ** Execution driver *)

(** What a successful run went through: the engine returned a result whose
    counts, brought to one dict, are the counts of the response; the
    divisor, the probabilities and the memory of the response are computed
    from them. *)
Lemma run_circuit_ok (E : Engine) (num_qubits : Z) (gates : list GateRecord)
    (shots : Z) (memory : bool) (override_backend : option string) (r : ExecuteResult) :
  run_circuit E num_qubits gates shots memory override_backend = Ok r ->
  exists (b : backend E) (tcirc : circuit E) (res : sim_result) (c : counts_value)
         (total : total_value),
    backend_run E b tcirc shots memory = Ok res
    /\ get_counts res = Ok c
    /\ normalize_counts c = Ok (res_counts r)
    /\ total_of shots (res_counts r) = Ok total
    /\ probabilities_of total (res_counts r) = Ok (res_probabilities r)
    /\ res_memory r = memory_out_of memory res
    /\ res_shots r = shots.
Proof.
  unfold run_circuit. intros H.
  bind_inv H. bind_inv H. bind_inv H. bind_inv H. bind_inv H. bind_inv H.
  bind_inv H. bind_inv H. bind_inv H. bind_inv H.
  injection H as <-. simpl.
  destruct (backend_run E a2 a3 shots memory) as [res | e] eqn:Hrun;
    [injection Ha4 as -> | discriminate Ha4].
  exists a2, a3, a4, a5, a7. repeat split; assumption.
Qed.

(** Each probability is the quotient of the count of its key. *)
Lemma probabilities_of_entries (total : total_value) (counts : list (string * Z))
    (probs : list (string * float)) :
  probabilities_of total counts = Ok probs ->
  Forall2 (fun kv kp => fst kp = fst kv /\ divide_count (snd kv) total = Ok (snd kp))
          counts probs.
Proof.
  unfold probabilities_of. revert probs.
  induction counts as [| kv counts IH]; simpl; intros probs H.
  - injection H as <-. constructor.
  - bind_inv H. bind_inv H. injection H as <-.
    bind_inv Ha. injection Ha as <-.
    constructor; [split; [reflexivity | exact Ha1] | apply IH; exact Ha0].
Qed.

Lemma Qsum_exact_quotients (t : Z) (counts : list (string * Z)) :
  (Qsum (exact_quotients t counts) == inject_Z (sum_values counts) / inject_Z t)%Q.
Proof.
  unfold exact_quotients. induction counts as [| kv counts IH]; simpl.
  - unfold Qdiv. rewrite Qmult_0_l. reflexivity.
  - rewrite IH. unfold Qdiv. rewrite inject_Z_plus, Qmult_plus_distr_l. reflexivity.
Qed.

Lemma total_of_positive (shots : Z) (counts : list (string * Z)) (total : total_value) :
  1 <= shots ->
  total_of shots counts = Ok total ->
  exists t, float_of_int shots = Some t /\ total = TotalFloat t.
Proof.
  intros H. unfold total_of.
  destruct (shots =? 0) eqn:H0; [apply Z.eqb_eq in H0; lia |].
  destruct (float_of_int shots) as [t |]; [| discriminate].
  intros Ht. injection Ht as <-. exists t. split; reflexivity.
Qed.

Lemma total_of_zero (counts : list (string * Z)) :
  total_of 0 counts = Ok (TotalInt (sum_values counts)).
Proof. reflexivity. Qed.

(** C4 (the code departs from the claim).  When memory is requested and the
    engine supplies the list of per-shot bitstrings, the [memory] field of
    the response is [mem[0]], the bitstring of the first shot alone, and not
    the list: here three shots "0", "1", "0" leave the string "0". *)
Theorem memory_keeps_first_shot_only :
  (forall (c : result counts_value) (s : string) (l : list string),
      memory_out_of true (mkSimResult c (Ok (MList (s :: l)))) = Some (MStr s))
  /\ run_circuit
       (mock_engine (CountsDict [("0", 2); ("1", 1)]) (Ok (MList ["0"; "1"; "0"])))
       1 [] 3 true None
     = Ok {| res_backend := "aer_simulator";
             res_shots := 3;
             res_counts := [("0", 2); ("1", 1)];
             res_probabilities := [("0", (2 / 3)%float); ("1", (1 / 3)%float)];
             res_memory := Some (MStr "0") |}.
Proof.
  split.
  - intros c s l. reflexivity.
  - vm_compute. reflexivity.
Qed.

(** The half of the claim the code keeps: a memory the engine cannot supply
    is absorbed, the field is [None] and nothing is raised for it. *)
Lemma memory_failure_is_absorbed :
  forall (c : result counts_value) (e : exn) (memory : bool),
    memory_out_of memory (mkSimResult c (Err e)) = None.
Proof.
  intros c e [|]; reflexivity.
Qed.

Lemma memory_not_requested :
  forall res : sim_result, memory_out_of false res = None.
Proof.
  intros res. reflexivity.
Qed.

(** C8 (amended).  With a requested shot count of at least 1, every
    probability of a response is the double obtained by dividing the count
    of its key, as a double, by the requested shot count, as a double,
    whatever the counts add up to.  The quotients before rounding sum to at
    most 1 whenever the counts total at most the requested shots. *)
Theorem probabilities_divide_by_requested_shots :
  forall (E : Engine) (num_qubits : Z) (gates : list GateRecord) (shots : Z)
         (memory : bool) (override_backend : option string) (r : ExecuteResult),
    1 <= shots ->
    run_circuit E num_qubits gates shots memory override_backend = Ok r ->
    exists t,
      float_of_int shots = Some t
      /\ Forall2 (fun kv kp =>
                    fst kp = fst kv
                    /\ exists a, float_of_int (snd kv) = Some a
                                 /\ snd kp = (a / t)%float)
                 (res_counts r) (res_probabilities r)
      /\ (sum_values (res_counts r) <= shots ->
          (Qsum (exact_quotients shots (res_counts r)) <= 1)%Q).
Proof.
  intros E num_qubits gates shots memory override_backend r Hshots Hrun.
  destruct (run_circuit_ok _ _ _ _ _ _ _ Hrun)
    as (b & tcirc & res & c & total & _ & _ & _ & Htotal & Hprob & _ & _).
  destruct (total_of_positive _ _ _ Hshots Htotal) as (t & Ht & ->).
  exists t. split; [exact Ht | split].
  - apply probabilities_of_entries in Hprob.
    eapply Forall2_impl; [| exact Hprob].
    intros kv kp [Hk Hd]. split; [exact Hk |].
    simpl in Hd. destruct (float_of_int (snd kv)) as [a |]; [| discriminate Hd].
    exists a. split; [reflexivity |].
    destruct (t =? 0)%float; [discriminate Hd |]. injection Hd as <-. reflexivity.
  - intros Hsum. rewrite Qsum_exact_quotients.
    apply Qle_shift_div_r.
    + change 0%Q with (inject_Z 0). rewrite <- Zlt_Qlt. lia.
    + rewrite Qmult_1_l, <- Zle_Qle. exact Hsum.
Qed.

Lemma probabilities_divide_by_requested_shots_witness :
  exists t,
    float_of_int 1024 = Some t
    /\ Forall2 (fun kv kp =>
                  fst kp = fst kv
                  /\ exists a, float_of_int (snd kv) = Some a /\ snd kp = (a / t)%float)
               bell_counts (res_probabilities bell_response)
    /\ (Qsum (exact_quotients 1024 bell_counts) <= 1)%Q.
Proof.
  destruct (probabilities_divide_by_requested_shots
              (mock_engine (CountsDict bell_counts) no_memory)
              2 bell_gates 1024 false None bell_response)
    as (t & Ht & Hall & Hle).
  - lia.
  - vm_compute. reflexivity.
  - exists t. split; [exact Ht | split; [exact Hall |]].
    apply Hle. vm_compute. discriminate.
Defined.

(** C8 as it was stated fails on the doubles the code returns: for 10 shots
    seen as 2, 4, 3 and 1 the counts total the requested shots, and the four
    probabilities add up to more than 1, added as doubles from the left
    (1.0000000000000002) and added exactly. *)
Lemma rounded_probabilities_sum_above_one :
  run_circuit (mock_engine (CountsDict ten_shots_counts) no_memory) 2 [] 10 false None
  = Ok ten_shots_response
  /\ sum_values (res_counts ten_shots_response) <= 10
  /\ (1 <? float_sum (map snd (res_probabilities ten_shots_response)))%float = true
  /\ exists q, exact_sum (map snd (res_probabilities ten_shots_response)) = Some q
               /\ (1 < q)%Q.
Proof.
  split; [vm_compute; reflexivity |].
  split; [vm_compute; discriminate |].
  split; [vm_compute; reflexivity |].
  eexists. split; [vm_compute; reflexivity | vm_compute; reflexivity].
Qed.

(** C10 (amended).  With [shots = 0] the divisor is the sum of the observed
    counts: every probability of a response is the quotient of the count of
    its key by that sum, rounded once to a double, and the sum is not zero
    when there is a count at all, a zero sum under a non-empty mapping
    raising [ZeroDivisionError].  The quotients before rounding sum to
    exactly 1. *)
Theorem zero_shots_divide_by_observed_total :
  forall (E : Engine) (num_qubits : Z) (gates : list GateRecord)
         (memory : bool) (override_backend : option string) (r : ExecuteResult),
    run_circuit E num_qubits gates 0 memory override_backend = Ok r ->
    Forall2 (fun kv kp =>
               fst kp = fst kv
               /\ int_quotient (snd kv) (sum_values (res_counts r)) = Some (snd kp))
            (res_counts r) (res_probabilities r)
    /\ (res_counts r <> [] -> sum_values (res_counts r) <> 0)
    /\ (sum_values (res_counts r) <> 0 ->
        (Qsum (exact_quotients (sum_values (res_counts r)) (res_counts r)) == 1)%Q)
    /\ (forall kv counts,
           sum_values (kv :: counts) = 0 ->
           probabilities_of (TotalInt (sum_values (kv :: counts))) (kv :: counts)
           = Err ZeroDivisionError).
Proof.
  intros E num_qubits gates memory override_backend r Hrun.
  destruct (run_circuit_ok _ _ _ _ _ _ _ Hrun)
    as (b & tcirc & res & c & total & _ & _ & _ & Htotal & Hprob & _ & _).
  rewrite total_of_zero in Htotal. injection Htotal as <-.
  apply probabilities_of_entries in Hprob.
  split; [| split; [| split]].
  - eapply Forall2_impl; [| exact Hprob].
    intros kv kp [Hk Hd]. split; [exact Hk |].
    simpl in Hd. destruct (sum_values (res_counts r) =? 0); [discriminate Hd |].
    destruct (int_quotient (snd kv) (sum_values (res_counts r))) as [p |];
      [injection Hd as <-; reflexivity | discriminate Hd].
  - intros Hne H0.
    destruct (res_counts r) as [| kv counts]; [apply Hne; reflexivity |].
    inversion Hprob as [| ? kp ? probs [_ Hd] _]; subst.
    unfold divide_count in Hd. rewrite H0 in Hd. discriminate Hd.
  - intros Hne. rewrite Qsum_exact_quotients. unfold Qdiv.
    apply Qmult_inv_r. intros H0. apply Hne.
    unfold Qeq in H0. simpl in H0. lia.
  - intros kv counts H0. unfold probabilities_of. cbn [map_result].
    unfold divide_count. rewrite H0. reflexivity.
Qed.

Lemma zero_shots_divide_by_observed_total_witness :
  Forall2 (fun kv kp =>
             fst kp = fst kv /\ int_quotient (snd kv) 3 = Some (snd kp))
          three_outcomes (res_probabilities three_outcomes_response)
  /\ (Qsum (exact_quotients 3 three_outcomes) == 1)%Q.
Proof.
  destruct (zero_shots_divide_by_observed_total
              (mock_engine (CountsDict three_outcomes) no_memory) 2 [] false None
              three_outcomes_response)
    as (Hall & _ & Hsum & _).
  - vm_compute. reflexivity.
  - split; [exact Hall |]. apply Hsum. vm_compute. discriminate.
Defined.

(** C10 as it was stated fails on the doubles the code returns: six
    outcomes seen once each, with [shots = 0], get six times the double
    nearest to 1/6, and these add up to less than 1, added as doubles from
    the left (0.9999999999999999) and added exactly. *)
Lemma zero_shots_rounded_sum_is_not_one :
  run_circuit (mock_engine (CountsDict six_outcomes) no_memory) 3 [] 0 false None
  = Ok six_outcomes_response
  /\ res_counts six_outcomes_response <> []
  /\ (float_sum (map snd (res_probabilities six_outcomes_response)) <? 1)%float = true
  /\ exists q, exact_sum (map snd (res_probabilities six_outcomes_response)) = Some q
               /\ (q < 1)%Q.
Proof.
  split; [vm_compute; reflexivity |].
  split; [discriminate |].
  split; [vm_compute; reflexivity |].
  eexists. split; [vm_compute; reflexivity | vm_compute; reflexivity].
Qed.

(** ** The stable sort of [run_circuit] *)

Section SortingFacts.

Context {A : Type}.
Variable key : A -> Z.

Lemma insert_by_perm (x : A) (l : list A) :
  Permutation (insert_by key x l) (x :: l).
Proof.
  induction l as [| y l IH]; simpl.
  - apply Permutation_refl.
  - destruct (key y <? key x).
    + rewrite IH. apply perm_swap.
    + apply Permutation_refl.
Qed.

Lemma sorted_by_perm (l : list A) : Permutation (sorted_by key l) l.
Proof.
  induction l as [| x l IH]; simpl.
  - apply perm_nil.
  - rewrite insert_by_perm. apply perm_skip. exact IH.
Qed.

Lemma sorted_by_length (l : list A) :
  List.length (sorted_by key l) = List.length l.
Proof. apply Permutation_length, sorted_by_perm. Qed.

Lemma insert_by_sorted (x : A) (l : list A) :
  StronglySorted (key_le key) l -> StronglySorted (key_le key) (insert_by key x l).
Proof.
  induction l as [| y l IH]; simpl; intros Hs.
  - constructor; constructor.
  - inversion Hs as [| ? ? Hs' Hall]; subst.
    destruct (key y <? key x) eqn:Hlt.
    + apply Z.ltb_lt in Hlt. constructor.
      * apply IH. exact Hs'.
      * apply (Permutation_Forall (x := x :: l)).
        -- symmetry. apply insert_by_perm.
        -- constructor; [unfold key_le; lia | exact Hall].
    + apply Z.ltb_ge in Hlt. constructor.
      * exact Hs.
      * constructor; [exact Hlt |].
        eapply Forall_impl; [| exact Hall].
        unfold key_le. intros a Ha. lia.
Qed.

(** The keys of the result ascend. *)
Lemma sorted_by_sorted (l : list A) : StronglySorted (key_le key) (sorted_by key l).
Proof.
  induction l as [| x l IH]; simpl.
  - constructor.
  - apply insert_by_sorted. exact IH.
Qed.

Lemma insert_by_filter_key (k : Z) (x : A) (l : list A) :
  filter (fun a => key a =? k) (insert_by key x l)
  = filter (fun a => key a =? k) (x :: l).
Proof.
  induction l as [| y l IH]; [reflexivity |].
  simpl insert_by. destruct (key y <? key x) eqn:Hlt; [| reflexivity].
  apply Z.ltb_lt in Hlt.
  simpl in *. rewrite IH.
  destruct (key y =? k) eqn:Hy, (key x =? k) eqn:Hx; try reflexivity.
  apply Z.eqb_eq in Hy, Hx. lia.
Qed.

(** The sort is stable: the records of one key keep their input order. *)
Lemma sorted_by_stable (k : Z) (l : list A) :
  filter (fun a => key a =? k) (sorted_by key l) = filter (fun a => key a =? k) l.
Proof.
  induction l as [| x l IH]; [reflexivity |].
  simpl sorted_by. rewrite insert_by_filter_key. simpl. rewrite IH. reflexivity.
Qed.

Lemma insert_by_least (x : A) (l : list A) :
  Forall (key_le key x) l -> insert_by key x l = x :: l.
Proof.
  destruct l as [| y l]; [reflexivity |].
  intros H. inversion H as [| ? ? Hy _]; subst. simpl.
  unfold key_le in Hy. destruct (key y <? key x) eqn:Hlt; [| reflexivity].
  apply Z.ltb_lt in Hlt. lia.
Qed.

Lemma insert_by_filter_in (p : A -> bool) (x : A) (l : list A) :
  StronglySorted (key_le key) l -> p x = true ->
  filter p (insert_by key x l) = insert_by key x (filter p l).
Proof.
  intros Hs Hp. induction l as [| y l IH]; simpl.
  - rewrite Hp. reflexivity.
  - inversion Hs as [| ? ? Hs' Hall]; subst.
    destruct (key y <? key x) eqn:Hlt.
    + simpl. destruct (p y); simpl.
      * rewrite Hlt, IH by exact Hs'. reflexivity.
      * apply IH. exact Hs'.
    + apply Z.ltb_ge in Hlt. simpl. rewrite Hp.
      change (if p y then y :: filter p l else filter p l) with (filter p (y :: l)).
      symmetry. apply insert_by_least.
      assert (Hx : Forall (key_le key x) (y :: l)).
      { constructor; [exact Hlt |].
        eapply Forall_impl; [| exact Hall]. unfold key_le. intros a Ha. lia. }
      apply Forall_forall. intros a Ha.
      apply filter_In in Ha. destruct Ha as [Ha _].
      rewrite Forall_forall in Hx. apply Hx. exact Ha.
Qed.

Lemma insert_by_filter_out (p : A -> bool) (x : A) (l : list A) :
  p x = false -> filter p (insert_by key x l) = filter p l.
Proof.
  intros Hp. induction l as [| y l IH]; simpl.
  - rewrite Hp. reflexivity.
  - destruct (key y <? key x); simpl.
    + rewrite IH. reflexivity.
    + rewrite Hp. reflexivity.
Qed.

(** Taking records out before or after the sort is the same. *)
Lemma sorted_by_filter (p : A -> bool) (l : list A) :
  filter p (sorted_by key l) = sorted_by key (filter p l).
Proof.
  induction l as [| x l IH]; [reflexivity |].
  simpl. destruct (p x) eqn:Hp.
  - rewrite insert_by_filter_in by (apply sorted_by_sorted || exact Hp).
    simpl. rewrite IH. reflexivity.
  - rewrite insert_by_filter_out by exact Hp. exact IH.
Qed.

End SortingFacts.

(** ** Applying gates *)

Section GateFacts.

Variable E : Engine.

Lemma known_type_In (g : GateRecord) :
  known_type g = true <-> In (gate_type g) vocabulary.
Proof.
  unfold known_type. rewrite existsb_exists. split.
  - intros (s & Hin & Heq). apply String.eqb_eq in Heq. rewrite Heq. exact Hin.
  - intros Hin. exists (gate_type g). split; [exact Hin | apply String.eqb_refl].
Qed.

Lemma unknown_type_resolves_to_nothing (g : GateRecord) :
  known_type g = false -> resolve_gate E g = Ok None.
Proof.
  unfold known_type, vocabulary. cbn [existsb]. intros H.
  repeat match goal with
         | H : _ || _ = false |- _ => apply orb_false_elim in H; destruct H
         end.
  unfold resolve_gate.
  repeat match goal with
         | H : String.eqb _ _ = false |- _ => rewrite H; clear H
         end.
  reflexivity.
Qed.

(** The tags of [vocabulary] are the tags the code acts on: a record of a
    known type resolves to an engine call or to an error, never to nothing. *)
Lemma known_type_resolves_to_something (g : GateRecord) :
  known_type g = true -> resolve_gate E g <> Ok None.
Proof.
  unfold known_type, vocabulary, resolve_gate. cbn [existsb].
  repeat match goal with
         | |- context [String.eqb (gate_type g) ?s] =>
             destruct (String.eqb (gate_type g) s)
         end;
    cbn [orb]; try discriminate;
    repeat match goal with
           | |- context [_get_angle E ?v] => destruct (_get_angle E v)
           | |- context [match ?x with Some _ => _ | None => _ end] => destruct x
           | |- context [match ?x with [] => _ | _ :: _ => _ end] => destruct x
           end;
    simpl; intros _; discriminate.
Qed.

Lemma unknown_type_applies_nothing (g : GateRecord) (qc : circuit E) :
  known_type g = false -> _apply_gate E qc g = Ok qc.
Proof.
  intros H. unfold _apply_gate.
  rewrite (unknown_type_resolves_to_nothing g H). reflexivity.
Qed.

Lemma failed_resolution_raises (g : GateRecord) (qc : circuit E) (e : exn) :
  resolve_gate E g = Err e -> _apply_gate E qc g = Err e.
Proof.
  intros H. unfold _apply_gate. rewrite H. reflexivity.
Qed.

Lemma apply_gates_skip_unknown (gs : list GateRecord) (qc : circuit E) :
  apply_gates E qc gs = apply_gates E qc (filter known_type gs).
Proof.
  revert qc. induction gs as [| g gs IH]; intros qc; [reflexivity |].
  simpl. destruct (known_type g) eqn:Hk; simpl.
  - destruct (_apply_gate E qc g) as [qc' | e]; simpl; [apply IH | reflexivity].
  - rewrite (unknown_type_applies_nothing g qc Hk). simpl. apply IH.
Qed.

(** The loop of [run_circuit] stops at the first gate that raises: a list
    with a gate that fails to normalise never runs to its end. *)
Lemma apply_gates_raises (gs : list GateRecord) (g : GateRecord) (e : exn) :
  In g gs -> resolve_gate E g = Err e ->
  forall qc, exists e', apply_gates E qc gs = Err e'.
Proof.
  intros Hin Hres. induction gs as [| g' gs IH]; [destruct Hin |].
  intros qc. simpl.
  destruct (_apply_gate E qc g') as [qc' | e'] eqn:Happ; simpl.
  - destruct Hin as [-> | Hin].
    + rewrite (failed_resolution_raises g qc e Hres) in Happ. discriminate Happ.
    + apply IH. exact Hin.
  - exists e'. reflexivity.
Qed.

(** The loop of the evolution walker passes over the gates that leave the
    circuit as it is, by raising or by doing nothing. *)
Lemma apply_column_filter (keep : GateRecord -> bool) :
  (forall g qc, keep g = false ->
                _apply_gate E qc g = Ok qc \/ exists e, _apply_gate E qc g = Err e) ->
  forall col qc, apply_column E qc col = apply_column E qc (filter keep col).
Proof.
  intros Hkeep col. induction col as [| g col IH]; intros qc; [reflexivity |].
  simpl. destruct (keep g) eqn:Hk; simpl.
  - destruct (_apply_gate E qc g); apply IH.
  - destruct (Hkeep g qc Hk) as [-> | (e & ->)]; apply IH.
Qed.

Lemma columns_get_prune (keep : GateRecord -> bool) (columns : columns_t) (k : pyval) :
  columns_get (prune_columns keep columns) k = filter keep (columns_get columns k).
Proof.
  induction columns as [| [k' gs] columns IH]; [reflexivity |].
  simpl. destruct (py_eq k' k); [reflexivity | exact IH].
Qed.

Lemma keys_prune (keep : GateRecord -> bool) (columns : columns_t) :
  map fst (prune_columns keep columns) = map fst columns.
Proof.
  unfold prune_columns. rewrite map_map. reflexivity.
Qed.

Lemma walk_prune (keep : GateRecord -> bool) :
  (forall g qc, keep g = false ->
                _apply_gate E qc g = Ok qc \/ exists e, _apply_gate E qc g = Err e) ->
  forall columns keys qc,
    walk E qc (prune_columns keep columns) keys = walk E qc columns keys.
Proof.
  intros Hkeep columns keys. induction keys as [| k keys IH]; intros qc; [reflexivity |].
  simpl. rewrite columns_get_prune, <- (apply_column_filter keep Hkeep).
  destruct (snapshot E _ _); simpl; [rewrite IH |]; reflexivity.
Qed.

Lemma evolve_columns_prune (keep : GateRecord -> bool) :
  (forall g qc, keep g = false ->
                _apply_gate E qc g = Ok qc \/ exists e, _apply_gate E qc g = Err e) ->
  forall num_qubits columns,
    evolve_columns E num_qubits (prune_columns keep columns)
    = evolve_columns E num_qubits columns.
Proof.
  intros Hkeep num_qubits columns. unfold evolve_columns.
  rewrite keys_prune.
  destruct (QuantumCircuit E num_qubits 0) as [qc | e]; [simpl | reflexivity].
  destruct (snapshot E qc _); [simpl | reflexivity].
  destruct (py_sorted (map fst columns)); [simpl | reflexivity].
  rewrite (walk_prune keep Hkeep). reflexivity.
Qed.

Lemma unknown_type_is_passed_over (g : GateRecord) (qc : circuit E) :
  known_type g = false ->
  _apply_gate E qc g = Ok qc \/ exists e, _apply_gate E qc g = Err e.
Proof.
  intros H. left. apply unknown_type_applies_nothing. exact H.
Qed.

Lemma failing_gate_is_passed_over (g : GateRecord) (qc : circuit E) :
  normalizes E g = false ->
  _apply_gate E qc g = Ok qc \/ exists e, _apply_gate E qc g = Err e.
Proof.
  unfold normalizes. intros H. apply is_ok_false in H. destruct H as (e & H).
  right. exists e. apply failed_resolution_raises. exact H.
Qed.

End GateFacts.

(** ** Column builder and evolution walker *)

Lemma py_lt_int (a b : pyval) :
  int_like a = true -> int_like b = true -> py_lt a b = Ok (int_of a <? int_of b).
Proof.
  destruct a, b; simpl; intros Ha Hb; try discriminate; reflexivity.
Qed.

Lemma py_eq_int (a b : pyval) :
  int_like a = true -> int_like b = true -> py_eq a b = (int_of a =? int_of b).
Proof.
  destruct a, b; simpl; intros Ha Hb; try discriminate; reflexivity.
Qed.

Lemma py_insert_int (x : pyval) (l : list pyval) :
  int_like x = true -> Forall (fun v => int_like v = true) l ->
  py_insert x l = Ok (insert_by int_of x l).
Proof.
  intros Hx Hl. induction Hl as [| y l Hy Hl IH]; [reflexivity |].
  simpl. rewrite (py_lt_int y x Hy Hx). simpl.
  destruct (int_of y <? int_of x); [rewrite IH |]; reflexivity.
Qed.

(** On integer keys [sorted] raises nothing and is the stable sort by value. *)
Lemma py_sorted_int (l : list pyval) :
  Forall (fun v => int_like v = true) l ->
  py_sorted l = Ok (sorted_by int_of l).
Proof.
  intros Hl. induction Hl as [| x l Hx Hl IH]; [reflexivity |].
  simpl. rewrite IH. simpl. apply py_insert_int; [exact Hx |].
  apply (Permutation_Forall (x := l)); [| exact Hl].
  symmetry. apply sorted_by_perm.
Qed.

Lemma py_insert_length (x : pyval) (l s : list pyval) :
  py_insert x l = Ok s -> List.length s = S (List.length l).
Proof.
  revert s. induction l as [| y l IH]; simpl; intros s H.
  - injection H as <-. reflexivity.
  - bind_inv H. destruct a.
    + bind_inv H. injection H as <-. simpl. rewrite (IH _ Ha0). reflexivity.
    + injection H as <-. reflexivity.
Qed.

Lemma py_sorted_length (l s : list pyval) :
  py_sorted l = Ok s -> List.length s = List.length l.
Proof.
  revert s. induction l as [| x l IH]; simpl; intros s H.
  - injection H as <-. reflexivity.
  - bind_inv H. rewrite (py_insert_length _ _ _ H), (IH _ Ha). reflexivity.
Qed.

Lemma columns_append_keys (cols : columns_t) (pos : pyval) (g : GateRecord) :
  map fst (columns_append cols pos g)
  = if existsb (fun k => py_eq k pos) (map fst cols) then map fst cols
    else map fst cols ++ [pos].
Proof.
  induction cols as [| [k gs] cols IH]; [reflexivity |].
  simpl. destruct (py_eq k pos); simpl; [reflexivity |].
  rewrite IH. destruct (existsb _ _); reflexivity.
Qed.

Lemma build_columns_keys_from (gates : list GateRecord) (cols : columns_t) :
  map fst (fold_left (fun cols g => columns_append cols (column_of g) g) gates cols)
  = fold_left (fun seen p => if existsb (fun k => py_eq k p) seen then seen
                             else seen ++ [p])
              (map column_of gates) (map fst cols).
Proof.
  revert cols. induction gates as [| g gates IH]; intros cols; [reflexivity |].
  simpl. rewrite IH, columns_append_keys. reflexivity.
Qed.

(** The keys of the column dictionary are the distinct position values, the
    absent one read as 0. *)
Lemma build_columns_keys (gates : list GateRecord) :
  map fst (build_columns gates) = occupied_positions gates.
Proof.
  apply (build_columns_keys_from gates []).
Qed.

Lemma seen_int (seen : list pyval) (p : pyval) :
  Forall (fun v => int_like v = true) seen -> int_like p = true ->
  existsb (fun k => py_eq k p) seen = true <-> In (int_of p) (map int_of seen).
Proof.
  intros Hseen Hp. rewrite existsb_exists, in_map_iff. split.
  - intros (k & Hin & Heq). exists k. split; [| exact Hin].
    rewrite Forall_forall in Hseen.
    rewrite (py_eq_int k p (Hseen k Hin) Hp) in Heq. apply Z.eqb_eq in Heq. exact Heq.
  - intros (k & Heq & Hin). exists k. split; [exact Hin |].
    rewrite Forall_forall in Hseen.
    rewrite (py_eq_int k p (Hseen k Hin) Hp). apply Z.eqb_eq. exact Heq.
Qed.

Lemma distinct_from_int (l : list pyval) :
  Forall (fun v => int_like v = true) l ->
  forall seen : list pyval,
    Forall (fun v => int_like v = true) seen ->
    NoDup (map int_of seen) ->
    let r := fold_left (fun seen p => if existsb (fun k => py_eq k p) seen then seen
                                      else seen ++ [p]) l seen in
    Forall (fun v => int_like v = true) r
    /\ NoDup (map int_of r)
    /\ (forall z, In z (map int_of r) <-> In z (map int_of seen) \/ In z (map int_of l)).
Proof.
  intros Hl. induction Hl as [| p l Hp Hl IH]; intros seen Hseen Hnd; simpl.
  - repeat split; try assumption.
    + intros H. left. exact H.
    + intros [H | []]. exact H.
  - destruct (existsb (fun k => py_eq k p) seen) eqn:Hex.
    + destruct (IH seen Hseen Hnd) as (H1 & H2 & H3).
      repeat split; try assumption.
      * intros H. apply H3 in H. tauto.
      * intros H. apply H3. destruct H as [H | [H | H]]; [tauto | | tauto].
        left. rewrite <- H. apply seen_int; assumption.
    + assert (Hnew : ~ In (int_of p) (map int_of seen)).
      { intros Hin. apply (seen_int seen p Hseen Hp) in Hin. congruence. }
      destruct (IH (seen ++ [p])) as (H1 & H2 & H3).
      * apply Forall_app. split; [exact Hseen | constructor; [exact Hp | constructor]].
      * rewrite map_app. simpl. apply NoDup_app; [exact Hnd | | ].
        -- constructor; [intros [] | constructor].
        -- intros a Ha [<- | []]. contradiction.
      * repeat split; try assumption.
        -- intros H. apply H3 in H. rewrite map_app, in_app_iff in H. simpl in H. tauto.
        -- intros H. apply H3. rewrite map_app, in_app_iff. simpl. tauto.
Qed.

(** On integer positions [distinct] counts what [nodup] counts. *)
Lemma distinct_int (l : list pyval) :
  Forall (fun v => int_like v = true) l ->
  Forall (fun v => int_like v = true) (distinct l)
  /\ List.length (distinct l) = List.length (nodup Z.eq_dec (map int_of l)).
Proof.
  intros Hl.
  destruct (distinct_from_int l Hl [] (Forall_nil _) (NoDup_nil _)) as (H1 & H2 & H3).
  fold (distinct l) in H1, H2, H3.
  split; [exact H1 |].
  rewrite <- (length_map int_of (distinct l)).
  apply Permutation_length, NoDup_Permutation.
  - exact H2.
  - apply NoDup_nodup.
  - intros z. rewrite nodup_In, H3. simpl. tauto.
Qed.

Section WalkerFacts.

Variable E : Engine.

Lemma walk_length (columns : columns_t) (keys : list pyval) :
  forall (qc : circuit E) (snaps : list (list string)),
    walk E qc columns keys = Ok snaps -> List.length snaps = List.length keys.
Proof.
  induction keys as [| k keys IH]; simpl; intros qc snaps H.
  - injection H as <-. reflexivity.
  - bind_inv H. bind_inv H. injection H as <-. simpl.
    rewrite (IH _ _ Ha0). reflexivity.
Qed.

Lemma walk_total (columns : columns_t) (keys : list pyval) :
  (forall qc : circuit E, is_ok (Statevector E qc) = true) ->
  forall qc : circuit E, exists snaps, walk E qc columns keys = Ok snaps.
Proof.
  intros Hsv. induction keys as [| k keys IH]; simpl; intros qc.
  - eexists. reflexivity.
  - unfold snapshot.
    destruct (is_ok_true _ (Hsv (apply_column E qc (columns_get columns k)))) as (sv & ->).
    simpl.
    destruct (IH (apply_column E qc (columns_get columns k))) as (rest & ->).
    simpl. eexists. reflexivity.
Qed.

(** A completed evolution has one snapshot more than there are columns. *)
Lemma evolution_length (num_qubits : Z) (gates : list GateRecord)
    (snaps : list (list string)) :
  get_state_evolution E num_qubits gates = Ok snaps ->
  List.length snaps = S (List.length (occupied_positions gates)).
Proof.
  unfold get_state_evolution, evolve_columns. intros H.
  bind_inv H. bind_inv H. bind_inv H. bind_inv H. injection H as <-.
  simpl. rewrite (walk_length _ _ _ _ Ha2), (py_sorted_length _ _ Ha1).
  rewrite build_columns_keys. reflexivity.
Qed.

Lemma column_of_int (g : GateRecord) :
  int_position g = true ->
  int_like (column_of g) = true /\ int_of (column_of g) = sort_key g.
Proof.
  unfold int_position, column_of, sort_key.
  destruct (gate_position g); intros H; try discriminate H; split; reflexivity.
Qed.

Lemma occupied_positions_int (gates : list GateRecord) :
  Forall (fun g => int_position g = true) gates ->
  Forall (fun v => int_like v = true) (map column_of gates)
  /\ map int_of (map column_of gates) = map sort_key gates.
Proof.
  intros H. induction H as [| g gates Hg H [IH1 IH2]]; simpl.
  - split; [constructor | reflexivity].
  - destruct (column_of_int g Hg) as [H1 H2]. split.
    + constructor; assumption.
    + rewrite H2, IH2. reflexivity.
Qed.

(** With an engine that builds the circuit and always yields a state
    vector, and positions that are integers or absent, the evolution
    completes. *)
Lemma evolution_total (num_qubits : Z) (gates : list GateRecord) :
  is_ok (QuantumCircuit E num_qubits 0) = true ->
  (forall qc : circuit E, is_ok (Statevector E qc) = true) ->
  Forall (fun g => int_position g = true) gates ->
  exists snaps, get_state_evolution E num_qubits gates = Ok snaps.
Proof.
  intros Hqc Hsv Hpos. unfold get_state_evolution, evolve_columns.
  destruct (is_ok_true _ Hqc) as (qc & ->). simpl.
  unfold snapshot at 1. destruct (is_ok_true _ (Hsv qc)) as (sv & ->). simpl.
  rewrite build_columns_keys. unfold occupied_positions.
  rewrite py_sorted_int.
  - simpl. destruct (walk_total (build_columns gates)
                       (sorted_by int_of (distinct (map column_of gates))) Hsv qc)
      as (rest & ->).
    simpl. eexists. reflexivity.
  - apply distinct_int, occupied_positions_int. exact Hpos.
Qed.

End WalkerFacts.

(** ** The two fault policies *)

(** C9.  A record whose type tag is outside the vocabulary is a silent
    no-op: it resolves to no engine call and raises nothing, and both paths
    go on as if it were not in its loop: [run_circuit] gives what it gives
    on the list without such records, and the evolution walker what it gives
    on the same columns without them. *)
Theorem unknown_type_is_a_no_op :
  forall E : Engine,
    (forall g : GateRecord,
        ~ In (gate_type g) vocabulary ->
        resolve_gate E g = Ok None /\ forall qc, _apply_gate E qc g = Ok qc)
    /\ (forall num_qubits gates shots memory override_backend,
           run_circuit E num_qubits gates shots memory override_backend
           = run_circuit E num_qubits (filter known_type gates) shots memory
                         override_backend)
    /\ (forall qc col,
           apply_column E qc col = apply_column E qc (filter known_type col))
    /\ (forall num_qubits gates,
           get_state_evolution E num_qubits gates
           = evolve_columns E num_qubits (prune_columns known_type (build_columns gates))).
Proof.
  intros E. split; [| split; [| split]].
  - intros g Hg.
    assert (Hk : known_type g = false).
    { destruct (known_type g) eqn:Hk; [| reflexivity].
      apply known_type_In in Hk. contradiction. }
    split.
    + apply unknown_type_resolves_to_nothing. exact Hk.
    + intros qc. apply unknown_type_applies_nothing. exact Hk.
  - intros num_qubits gates shots memory override_backend. unfold run_circuit.
    destruct (QuantumCircuit E num_qubits num_qubits) as [qc | e]; [simpl | reflexivity].
    rewrite apply_gates_skip_unknown, sorted_by_filter. reflexivity.
  - intros qc col. apply apply_column_filter. apply unknown_type_is_passed_over.
  - intros num_qubits gates. unfold get_state_evolution. symmetry.
    apply evolve_columns_prune. apply unknown_type_is_passed_over.
Qed.

Lemma unknown_type_is_a_no_op_witness :
  resolve_gate plain_engine (gate1 "measure" 0 PNone) = Ok None
  /\ _apply_gate plain_engine [qc_h (Some 0)] (gate1 "measure" 0 PNone)
     = Ok [qc_h (Some 0)].
Proof.
  destruct (proj1 (unknown_type_is_a_no_op plain_engine) (gate1 "measure" 0 PNone))
    as [Hres Happ].
  - simpl. intros H.
    repeat (destruct H as [H | H]; [discriminate H |]). exact H.
  - split; [exact Hres | apply Happ].
Defined.

(** C5.  One gate that fails to normalise decides the two paths apart.
    [run_circuit] raises, whatever the engine and the other arguments: there
    is no response.  [get_state_evolution] gives what the walker gives on
    the same columns with the gates that fail to normalise taken out, each
    column's loop being the loop over its remaining gates; and it completes
    when the engine builds the circuit and yields every state vector, the
    positions being integers or absent. *)
Theorem fault_policies_differ :
  forall (E : Engine) (num_qubits : Z) (gates : list GateRecord)
         (g : GateRecord) (e : exn),
    In g gates ->
    resolve_gate E g = Err e ->
    (forall shots memory override_backend,
        exists e', run_circuit E num_qubits gates shots memory override_backend = Err e')
    /\ get_state_evolution E num_qubits gates
       = evolve_columns E num_qubits
                        (prune_columns (normalizes E) (build_columns gates))
    /\ (forall qc col,
           apply_column E qc col = apply_column E qc (filter (normalizes E) col))
    /\ (is_ok (QuantumCircuit E num_qubits 0) = true ->
        (forall qc : circuit E, is_ok (Statevector E qc) = true) ->
        Forall (fun g => int_position g = true) gates ->
        exists snaps, get_state_evolution E num_qubits gates = Ok snaps).
Proof.
  intros E num_qubits gates g e Hin Hres. split; [| split; [| split]].
  - intros shots memory override_backend. unfold run_circuit.
    destruct (QuantumCircuit E num_qubits num_qubits) as [qc | e0]; simpl.
    + destruct (apply_gates_raises E (sorted_by sort_key gates) g e) with (qc := qc)
        as (e' & ->).
      * apply (Permutation_in g (Permutation_sym (sorted_by_perm sort_key gates))).
        exact Hin.
      * exact Hres.
      * exists e'. reflexivity.
    + exists e0. reflexivity.
  - unfold get_state_evolution. symmetry.
    apply evolve_columns_prune. apply failing_gate_is_passed_over.
  - intros qc col. apply apply_column_filter. apply failing_gate_is_passed_over.
  - apply evolution_total.
Qed.

Lemma fault_policies_differ_witness :
  (exists e', run_circuit plain_engine 2 [gate1 "h" 0 (PInt 0); bare_cnot] 1024 false None
              = Err e')
  /\ get_state_evolution plain_engine 2 [gate1 "h" 0 (PInt 0); bare_cnot]
     = Ok [[]; ["h"]].
Proof.
  destruct (fault_policies_differ plain_engine 2 [gate1 "h" 0 (PInt 0); bare_cnot]
              bare_cnot
              (ValueError "CNOT requires control (qubit/controls[0]) and targets[0]"))
    as (Hrun & Hevo & _ & _).
  - right. left. reflexivity.
  - reflexivity.
  - split.
    + apply Hrun.
    + rewrite Hevo. reflexivity.
Defined.

(** ** Snapshot count *)

(** C7.  A completed evolution has exactly one snapshot more than there are
    distinct occupied position values: the initial one and one per column,
    none for a position no gate has.  It completes, with that count, when
    the engine builds the circuit and yields every state vector, the
    positions being integers or absent. *)
Theorem snapshot_count :
  forall (E : Engine) (num_qubits : Z) (gates : list GateRecord),
    (forall snaps,
        get_state_evolution E num_qubits gates = Ok snaps ->
        List.length snaps = (1 + List.length (occupied_positions gates))%nat)
    /\ (is_ok (QuantumCircuit E num_qubits 0) = true ->
        (forall qc : circuit E, is_ok (Statevector E qc) = true) ->
        Forall (fun g => int_position g = true) gates ->
        exists snaps,
          get_state_evolution E num_qubits gates = Ok snaps
          /\ List.length snaps
             = (1 + List.length (nodup Z.eq_dec (map sort_key gates)))%nat).
Proof.
  intros E num_qubits gates. split.
  - intros snaps H. apply (evolution_length E num_qubits gates snaps H).
  - intros Hqc Hsv Hpos.
    destruct (evolution_total E num_qubits gates Hqc Hsv Hpos) as (snaps & Hrun).
    exists snaps. split; [exact Hrun |].
    rewrite (evolution_length E num_qubits gates snaps Hrun).
    unfold occupied_positions.
    destruct (occupied_positions_int gates Hpos) as [Hint Hkeys].
    destruct (distinct_int _ Hint) as [_ Hlen].
    rewrite Hlen, Hkeys. reflexivity.
Qed.

Lemma snapshot_count_witness :
  exists snaps,
    get_state_evolution plain_engine 1 sparse_gates = Ok snaps
    /\ List.length snaps = 3%nat.
Proof.
  apply (proj2 (snapshot_count plain_engine 1 sparse_gates)).
  - reflexivity.
  - intros qc. reflexivity.
  - repeat constructor.
Defined.

(** No column is made for a position no gate has: gates at 5 and at the
    default 0 give three snapshots, not seven; and the single [h] at 0 of a
    one-qubit circuit gives two. *)
Lemma no_gap_filling :
  get_state_evolution plain_engine 1 sparse_gates = Ok [[]; ["x"]; ["x"; "h"; "z"]]
  /\ get_state_evolution plain_engine 1 [gate1 "h" 0 (PInt 0)] = Ok [[]; ["h"]].
Proof.
  split; reflexivity.
Qed.

(** ** Column order *)

(** C3 (the code departs from the claim).  Only [run_circuit] reads a
    position that is not an integer as 0.  For an [x] at position 0.5
    followed by an [h] at position 0 it applies [x] then [h], one column in
    input order; the evolution walker keeps 0.5 as a key of its own, walks
    column 0 before column 0.5, applies [h] then [x] and returns three
    snapshots.  With a text position beside an absent one the walker's
    [sorted] raises a [TypeError] and the request fails. *)
Theorem evolution_keeps_non_integer_positions :
  map sort_key half_then_zero = [0; 0]
  /\ apply_gates plain_engine [] (sorted_by sort_key half_then_zero)
     = Ok [qc_x (Some 0); qc_h (Some 0)]
  /\ occupied_positions half_then_zero = [PFloat 0.5%float; PInt 0]
  /\ get_state_evolution plain_engine 1 half_then_zero
     = Ok [[]; ["h"]; ["h"; "x"]]
  /\ map sort_key text_then_absent = [0; 0]
  /\ get_state_evolution plain_engine 1 text_then_absent = Err lt_not_supported.
Proof.
  repeat split; vm_compute; reflexivity.
Qed.


(** On positions that are integers or absent the walker goes through the
    gates in that same order. *)

Section StableSortUnique.

Context {A : Type}.
Variable key : A -> Z.

Lemma sorted_head_least (a b : A) (l : list A) :
  StronglySorted (key_le key) (b :: l) -> In a (b :: l) -> key b <= key a.
Proof.
  intros Hs Hin. inversion Hs as [| ? ? _ Hall]; subst.
  destruct Hin as [<- | Hin]; [lia |].
  rewrite Forall_forall in Hall. apply (Hall a Hin).
Qed.

(** A list is determined by the order of its keys and the order inside each
    key. *)
Lemma stable_sort_unique (l1 l2 : list A) :
  StronglySorted (key_le key) l1 ->
  StronglySorted (key_le key) l2 ->
  (forall k, filter (fun a => key a =? k) l1 = filter (fun a => key a =? k) l2) ->
  l1 = l2.
Proof.
  revert l2. induction l1 as [| a l1 IH]; intros l2 Hs1 Hs2 Hf.
  - destruct l2 as [| b l2]; [reflexivity |].
    specialize (Hf (key b)). simpl in Hf. rewrite Z.eqb_refl in Hf. discriminate Hf.
  - destruct l2 as [| b l2].
    + specialize (Hf (key a)). simpl in Hf. rewrite Z.eqb_refl in Hf. discriminate Hf.
    + assert (Ha : In a (b :: l2)).
      { apply (proj1 (filter_In (fun x => key x =? key a) a (b :: l2))).
        rewrite <- Hf. simpl. rewrite Z.eqb_refl. left. reflexivity. }
      assert (Hb : In b (a :: l1)).
      { apply (proj1 (filter_In (fun x => key x =? key b) b (a :: l1))).
        rewrite Hf. simpl. rewrite Z.eqb_refl. left. reflexivity. }
      assert (Hk : key b = key a).
      { apply Z.le_antisymm.
        - apply (sorted_head_least a b l2 Hs2 Ha).
        - apply (sorted_head_least b a l1 Hs1 Hb). }
      assert (Hab : a = b).
      { specialize (Hf (key a)). simpl in Hf.
        rewrite Hk, Z.eqb_refl in Hf. injection Hf as Hab _. exact Hab. }
      subst b. f_equal. apply IH.
      * inversion Hs1; assumption.
      * inversion Hs2; assumption.
      * intros k. specialize (Hf k). simpl in Hf.
        destruct (key a =? k); [injection Hf as Hf |]; exact Hf.
Qed.

Lemma constant_key_sorted (c : Z) (l : list A) :
  Forall (fun a => key a = c) l -> StronglySorted (key_le key) l.
Proof.
  intros H. induction H as [| a l Ha H IH]; constructor.
  - exact IH.
  - eapply Forall_impl; [| exact H]. unfold key_le. intros b Hb. lia.
Qed.

Lemma sorted_app (l1 l2 : list A) :
  StronglySorted (key_le key) l1 ->
  StronglySorted (key_le key) l2 ->
  (forall a b, In a l1 -> In b l2 -> key a <= key b) ->
  StronglySorted (key_le key) (l1 ++ l2).
Proof.
  intros H1 H2 H12. induction H1 as [| a l1 H1 IH Hall]; simpl.
  - exact H2.
  - constructor.
    + apply IH. intros x y Hx Hy. apply H12; [right; exact Hx | exact Hy].
    + apply Forall_app. split; [exact Hall |].
      apply Forall_forall. intros y Hy. apply H12; [left; reflexivity | exact Hy].
Qed.

End StableSortUnique.

Lemma distinct_int_keys (l : list pyval) :
  Forall (fun v => int_like v = true) l ->
  NoDup (map int_of (distinct l))
  /\ (forall z, In z (map int_of (distinct l)) <-> In z (map int_of l)).
Proof.
  intros Hl.
  destruct (distinct_from_int l Hl [] (Forall_nil _) (NoDup_nil _)) as (_ & H2 & H3).
  fold (distinct l) in H2, H3.
  split; [exact H2 |].
  intros z. rewrite H3. simpl. tauto.
Qed.

Lemma columns_append_get_int (cols : columns_t) (pos p : pyval) (g : GateRecord) :
  Forall (fun v => int_like v = true) (map fst cols) ->
  int_like pos = true -> int_like p = true ->
  columns_get (columns_append cols pos g) p
  = columns_get cols p ++ (if int_of pos =? int_of p then [g] else []).
Proof.
  intros Hcols Hpos Hp. induction cols as [| [k gs] cols IH]; simpl.
  - rewrite (py_eq_int pos p Hpos Hp). destruct (int_of pos =? int_of p); reflexivity.
  - inversion Hcols as [| ? ? Hk Hcols']; subst. simpl in Hk.
    rewrite (py_eq_int k pos Hk Hpos), (py_eq_int k p Hk Hp).
    destruct (int_of k =? int_of pos) eqn:Hkpos; simpl;
      rewrite (py_eq_int k p Hk Hp);
      destruct (int_of k =? int_of p) eqn:Hkp.
    + apply Z.eqb_eq in Hkpos, Hkp.
      replace (int_of pos =? int_of p) with true by (symmetry; apply Z.eqb_eq; lia).
      reflexivity.
    + apply Z.eqb_eq in Hkpos. apply Z.eqb_neq in Hkp.
      replace (int_of pos =? int_of p) with false by (symmetry; apply Z.eqb_neq; lia).
      rewrite app_nil_r. reflexivity.
    + apply Z.eqb_neq in Hkpos. apply Z.eqb_eq in Hkp.
      replace (int_of pos =? int_of p) with false by (symmetry; apply Z.eqb_neq; lia).
      rewrite app_nil_r. reflexivity.
    + apply IH. exact Hcols'.
Qed.

Lemma columns_append_keys_int (cols : columns_t) (pos : pyval) (g : GateRecord) :
  Forall (fun v => int_like v = true) (map fst cols) ->
  int_like pos = true ->
  Forall (fun v => int_like v = true) (map fst (columns_append cols pos g)).
Proof.
  intros Hcols Hpos. rewrite columns_append_keys.
  destruct (existsb _ _); [exact Hcols |].
  apply Forall_app. split; [exact Hcols | constructor; [exact Hpos | constructor]].
Qed.

Lemma build_columns_get_from (gates : list GateRecord) (p : pyval) :
  Forall (fun g => int_position g = true) gates ->
  int_like p = true ->
  forall cols : columns_t,
    Forall (fun v => int_like v = true) (map fst cols) ->
    columns_get (fold_left (fun cols g => columns_append cols (column_of g) g) gates cols) p
    = columns_get cols p ++ filter (fun g => sort_key g =? int_of p) gates.
Proof.
  intros Hpos Hp. induction Hpos as [| g gates Hg Hpos IH]; intros cols Hcols; simpl.
  - rewrite app_nil_r. reflexivity.
  - destruct (column_of_int g Hg) as [Hlike Hkey].
    rewrite IH by (apply columns_append_keys_int; assumption).
    rewrite (columns_append_get_int cols (column_of g) p g Hcols Hlike Hp).
    rewrite Hkey, <- app_assoc.
    destruct (sort_key g =? int_of p); reflexivity.
Qed.

(** A column holds the gates of its position, in input order. *)
Lemma build_columns_get_int (gates : list GateRecord) (p : pyval) :
  Forall (fun g => int_position g = true) gates ->
  int_like p = true ->
  columns_get (build_columns gates) p = filter (fun g => sort_key g =? int_of p) gates.
Proof.
  intros Hpos Hp.
  apply (build_columns_get_from gates p Hpos Hp []). constructor.
Qed.

Lemma flat_map_one_key {A : Type} (k : Z) (X : list A) (ps : list pyval) :
  NoDup (map int_of ps) ->
  flat_map (fun p => if int_of p =? k then X else []) ps
  = if existsb (fun p => int_of p =? k) ps then X else [].
Proof.
  induction ps as [| p ps IH]; simpl; intros Hnd; [reflexivity |].
  inversion Hnd as [| ? ? Hnotin Hnd']; subst.
  rewrite (IH Hnd').
  destruct (int_of p =? k) eqn:Hpk; simpl; [| reflexivity].
  apply Z.eqb_eq in Hpk.
  destruct (existsb (fun p0 => int_of p0 =? k) ps) eqn:Hex.
  - exfalso. apply Hnotin. apply existsb_exists in Hex.
    destruct Hex as (q & Hq & Hqk). apply Z.eqb_eq in Hqk.
    apply in_map_iff. exists q. split; [lia | exact Hq].
  - apply app_nil_r.
Qed.

Lemma filter_flat_map {A B : Type} (f : B -> bool) (h : A -> list B) (l : list A) :
  filter f (flat_map h l) = flat_map (fun a => filter f (h a)) l.
Proof.
  induction l as [| a l IH]; simpl; [reflexivity |].
  rewrite filter_app, IH. reflexivity.
Qed.

Lemma filter_two_keys (k c : Z) (gates : list GateRecord) :
  filter (fun g => sort_key g =? k) (filter (fun g => sort_key g =? c) gates)
  = if c =? k then filter (fun g => sort_key g =? k) gates else [].
Proof.
  induction gates as [| g gates IH]; simpl.
  - destruct (c =? k); reflexivity.
  - destruct (sort_key g =? c) eqn:Hc; simpl.
    + apply Z.eqb_eq in Hc. rewrite IH, Hc. destruct (c =? k); reflexivity.
    + rewrite IH. destruct (c =? k) eqn:Hck; [| reflexivity].
      apply Z.eqb_eq in Hck. apply Z.eqb_neq in Hc.
      replace (sort_key g =? k) with false by (symmetry; apply Z.eqb_neq; lia).
      reflexivity.
Qed.

Lemma blocks_sorted (gates : list GateRecord) (ps : list pyval) :
  StronglySorted (key_le int_of) ps ->
  StronglySorted (key_le sort_key)
    (flat_map (fun p => filter (fun g => sort_key g =? int_of p) gates) ps).
Proof.
  intros Hs. induction Hs as [| p ps Hs IH Hall]; simpl; [constructor |].
  apply sorted_app.
  - apply (constant_key_sorted sort_key (int_of p)).
    apply Forall_forall. intros g Hg. apply filter_In in Hg.
    destruct Hg as [_ Hg]. apply Z.eqb_eq in Hg. exact Hg.
  - exact IH.
  - intros a b Ha Hb.
    apply filter_In in Ha. destruct Ha as [_ Ha]. apply Z.eqb_eq in Ha.
    apply in_flat_map in Hb. destruct Hb as (q & Hq & Hb).
    apply filter_In in Hb. destruct Hb as [_ Hb]. apply Z.eqb_eq in Hb.
    rewrite Forall_forall in Hall. specialize (Hall q Hq). unfold key_le in Hall. lia.
Qed.

(** On positions that are integers or absent the walker's [sorted] raises
    nothing, and its columns, taken in the sorted order of their keys, list
    the gates in the order of [run_circuit]'s stable sort: ascending
    positions, input order inside a position. *)
Lemma evolution_order_is_stable_sort (gates : list GateRecord) :
  Forall (fun g => int_position g = true) gates ->
  exists keys,
    py_sorted (map fst (build_columns gates)) = Ok keys
    /\ flat_map (columns_get (build_columns gates)) keys = sorted_by sort_key gates.
Proof.
  intros Hpos.
  destruct (occupied_positions_int gates Hpos) as [Hlike Hkeys].
  destruct (distinct_int _ Hlike) as [Hdl _].
  destruct (distinct_int_keys _ Hlike) as [Hnd Hin].
  set (ps := sorted_by int_of (distinct (map column_of gates))).
  assert (Hperm : Permutation ps (distinct (map column_of gates)))
    by apply sorted_by_perm.
  assert (Hps : Forall (fun v => int_like v = true) ps)
    by (apply (Permutation_Forall (Permutation_sym Hperm)); exact Hdl).
  exists ps. split.
  - rewrite build_columns_keys. apply py_sorted_int. exact Hdl.
  - assert (Hflat : flat_map (columns_get (build_columns gates)) ps
                    = flat_map (fun p => filter (fun g => sort_key g =? int_of p) gates) ps).
    { clear Hperm. induction Hps as [| p ps' Hp Hps' IH]; simpl; [reflexivity |].
      rewrite IH, (build_columns_get_int gates p Hpos Hp). reflexivity. }
    rewrite Hflat.
    apply (stable_sort_unique sort_key).
    + apply blocks_sorted. apply sorted_by_sorted.
    + apply sorted_by_sorted.
    + intros k. rewrite sorted_by_stable, filter_flat_map.
      rewrite (flat_map_ext _ (fun p => if int_of p =? k
                                        then filter (fun g => sort_key g =? k) gates
                                        else []))
        by (intros p; apply filter_two_keys).
      rewrite flat_map_one_key
        by (apply (Permutation_NoDup (Permutation_map int_of (Permutation_sym Hperm)));
            exact Hnd).
      destruct (existsb (fun p => int_of p =? k) ps) eqn:Hex; [reflexivity |].
      destruct (filter (fun g => sort_key g =? k) gates) as [| g rest] eqn:Hf;
        [reflexivity | exfalso].
      assert (Hg : In g (filter (fun g => sort_key g =? k) gates))
        by (rewrite Hf; left; reflexivity).
      apply filter_In in Hg. destruct Hg as [Hg Hgk]. apply Z.eqb_eq in Hgk.
      assert (Hk : In k (map int_of ps)).
      { apply (Permutation_in k (Permutation_map int_of (Permutation_sym Hperm))).
        apply Hin. rewrite Hkeys, <- Hgk. apply in_map. exact Hg. }
      apply in_map_iff in Hk. destruct Hk as (q & Hqk & Hq).
      assert (Htrue : existsb (fun p => int_of p =? k) ps = true).
      { apply existsb_exists. exists q. split; [exact Hq | apply Z.eqb_eq; exact Hqk]. }
      congruence.
Qed.

(** * Further properties of the code *)

(** ** Backend lookup *)



(** ** Gate normaliser *)













(** ** Angle resolver *)






(** ** Execution driver *)










(** ** Column builder *)








(** ** Evolution walker *)

Lemma walk_raises_RuntimeError (E : Engine) (columns : columns_t) (keys : list pyval) :
  forall (qc : circuit E) (e : exn),
    walk E qc columns keys = Err e ->
    (exists qc', is_ok (Statevector E qc') = false)
    /\ exists msg, e = RuntimeError msg.
Proof.
  induction keys as [| k keys IH]; simpl; intros qc e H; [discriminate H |].
  unfold snapshot in H.
  destruct (Statevector E (apply_column E qc (columns_get columns k))) as [sv | e0] eqn:Hs;
    simpl in H.
  - destruct (walk E (apply_column E qc (columns_get columns k)) columns keys)
      as [rest | e1] eqn:Hw; simpl in H; [discriminate H |].
    injection H as <-. apply (IH _ _ Hw).
  - injection H as <-. split.
    + exists (apply_column E qc (columns_get columns k)). rewrite Hs. reflexivity.
    + eexists. reflexivity.
Qed.

(** X15.  On positions that are integers or absent no gate can make the
    evolution fail: an error of [get_state_evolution] is the error of the
    circuit constructor or a [RuntimeError] for a state vector the engine
    did not yield. *)
Theorem evolution_fails_only_in_the_engine :
  forall (E : Engine) (num_qubits : Z) (gates : list GateRecord) (e : exn),
    Forall (fun g => int_position g = true) gates ->
    get_state_evolution E num_qubits gates = Err e ->
    QuantumCircuit E num_qubits 0 = Err e
    \/ ((exists qc, is_ok (Statevector E qc) = false)
        /\ exists msg, e = RuntimeError msg).
Proof.
  intros E num_qubits gates e Hpos. unfold get_state_evolution, evolve_columns.
  destruct (QuantumCircuit E num_qubits 0) as [qc | e0]; simpl;
    [| intros H; injection H as <-; left; reflexivity].
  unfold snapshot at 1.
  destruct (Statevector E qc) as [sv | e1] eqn:Hsv0; simpl.
  - rewrite build_columns_keys. unfold occupied_positions.
    rewrite py_sorted_int
      by (apply distinct_int, occupied_positions_int; exact Hpos).
    simpl.
    destruct (walk E qc (build_columns gates)
                   (sorted_by int_of (distinct (map column_of gates))))
      as [rest | e1] eqn:Hw; simpl; [discriminate |].
    intros H. injection H as <-. right.
    apply (walk_raises_RuntimeError _ _ _ _ _ Hw).
  - intros H. injection H as <-. right. split.
    + exists qc. rewrite Hsv0. reflexivity.
    + eexists. reflexivity.
Qed.

(** An engine that builds circuits and yields no state vector. *)
Lemma evolution_fails_only_in_the_engine_witness :
  (exists qc : circuit (mkEngine (list gate_op) string gate_op (fun _ => None)
                                 (fun _ => None) (fun _ _ => Ok [])
                                 (fun qc o => Ok (qc ++ [o])) (fun qc _ _ => Ok qc)
                                 (Ok "aer_simulator") (fun name => Ok name)
                                 (fun qc _ => Ok qc)
                                 (fun _ _ _ _ => Ok (mkSimResult (Ok CountsOther) no_memory))
                                 (fun _ => Err (EngineError "out of memory")) op_name),
      True)
  /\ exists msg, RuntimeError "Failed to get initial statevector" = RuntimeError msg.
Proof.
  destruct (evolution_fails_only_in_the_engine
              (mkEngine (list gate_op) string gate_op (fun _ => None)
                        (fun _ => None) (fun _ _ => Ok [])
                        (fun qc o => Ok (qc ++ [o])) (fun qc _ _ => Ok qc)
                        (Ok "aer_simulator") (fun name => Ok name)
                        (fun qc _ => Ok qc)
                        (fun _ _ _ _ => Ok (mkSimResult (Ok CountsOther) no_memory))
                        (fun _ => Err (EngineError "out of memory")) op_name)
              1 sparse_gates (RuntimeError "Failed to get initial statevector"))
    as [H | [(qc & _) Hmsg]].
  - repeat constructor.
  - reflexivity.
  - discriminate H.
  - split; [exists qc; exact I | exact Hmsg].
Defined.
